(** * canvas-shapes: the drawing surface of [src/app/page.tsx]

    A shallow embedding of the shape model, the geometry kernel, the
    viewport transform, the interaction handlers and the SVG importer of
    the second (consolidated, id-carrying) page component, followed by the
    properties proved about them.

    A JavaScript [number] is an IEEE 754 binary64 value.  The program is
    written once, over an interface of the number operations it uses, and
    read at two instances:
    - [float], Rocq's primitive binary64 numbers, which compute exactly what
      the engine computes;
    - [R], exact real arithmetic on finite values, the reading in which the
      algebraic properties of the viewport and of the grid are stated.

    Rendering calls on the 2D context draw pixels and do not feed back into
    the state; they are left out.  Strings are byte strings (ASCII text). *)

From Stdlib Require Import ZArith Reals Lra Lia Floats String Ascii List Bool.
From stdpp Require Import base decidable gmap sets list strings.

Local Open Scope Z_scope.

(** ** The number interface *)

(** Arithmetic, comparisons and literals.  [lit m k] is the decimal
    literal [m / 10^k]: [lit 9 1] is [0.9] and [lit 20 0] is [20]. *)
Class Arith (num : Type) := {
  add : num -> num -> num;
  sub : num -> num -> num;
  mul : num -> num -> num;
  div : num -> num -> num;
  neg : num -> num;
  lt : num -> num -> bool;
  le : num -> num -> bool;
  seq : num -> num -> bool;
  lit : Z -> nat -> num;
  Math_min : num -> num -> num;
  Math_max : num -> num -> num;
  Math_abs : num -> num
}.

(** The library functions with rounding: [Math.round], [Math.hypot] and the
    composite [parseFloat(x.toFixed(2))] the zoom handlers use. *)
Class MathLib (num : Type) := {
  Math_round : num -> num;
  Math_hypot : num -> num -> num;
  toFixed2 : num -> num
}.

(** The non-finite part: the [Infinity] constant and [parseFloat], whose
    result on text that is no numeral is [NaN]. *)
Class NonFinite (num : Type) := {
  Infinity : num;
  parseFloat : string -> num
}.

Declare Scope js_scope.
Delimit Scope js_scope with js.
Infix "+" := add : js_scope.
Infix "-" := sub : js_scope.
Infix "*" := mul : js_scope.
Infix "/" := div : js_scope.
Notation "- x" := (neg x) : js_scope.
Infix "<?" := lt : js_scope.
Infix "<=?" := le : js_scope.
Notation "x >? y" := (lt y x) (only parsing) : js_scope.
Notation "x >=? y" := (le y x) (only parsing) : js_scope.
Infix "===" := seq (at level 70, no associativity) : js_scope.

Definition int {num} `{Arith num} (n : Z) : num := lit n 0.

(** ** The string operations of the program *)

Module Str.

(** White space: tab, line feed, vertical tab, form feed, carriage return
    and space. *)
Definition is_space (c : ascii) : bool :=
  let n := nat_of_ascii c in ((9 <=? n)%nat && (n <=? 13)%nat) || (n =? 32)%nat.

Definition is_digit (c : ascii) : bool :=
  let n := nat_of_ascii c in (48 <=? n)%nat && (n <=? 57)%nat.

(** [s.trimStart()]. *)
Fixpoint trimStart (s : string) : string :=
  match s with
  | String c r => if is_space c then trimStart r else s
  | EmptyString => s
  end.

(** [s.trim()]. *)
Definition trim (s : string) : string :=
  String.rev (trimStart (String.rev (trimStart s))).

Definition is_empty (s : string) : bool :=
  match s with EmptyString => true | _ => false end.

(** [s.split(re)] for a pattern [re] that matches exactly one character of
    a class: every such character ends a piece, so a text with [n] of
    them gives [n + 1] pieces, empty ones included. *)
Fixpoint split_chars (sep : ascii -> bool) (s : string) : list string :=
  match s with
  | EmptyString => [EmptyString]
  | String c r =>
      if sep c then EmptyString :: split_chars sep r
      else
        match split_chars sep r with
        | piece :: rest => String c piece :: rest
        | [] => [String c EmptyString]
        end
  end.

(** [s.split(re)] for a pattern [re] that matches a longest run of
    characters of a class, such as [/[\s,]+/]; [in_run] tells that the
    character before was in the class. *)
Fixpoint split_runs_from (sep : ascii -> bool) (in_run : bool) (s : string)
    : list string :=
  match s with
  | EmptyString => [EmptyString]
  | String c r =>
      if sep c then
        if in_run then split_runs_from sep true r
        else EmptyString :: split_runs_from sep true r
      else
        match split_runs_from sep false r with
        | piece :: rest => String c piece :: rest
        | [] => [String c EmptyString]
        end
  end.

Definition split_runs (sep : ascii -> bool) (s : string) : list string :=
  split_runs_from sep false s.

(** [s.match(re)] with the [g] flag, for a one-character class: the
    matching characters in order. *)
Definition match_chars (cls : ascii -> bool) (s : string) : list ascii :=
  filter (fun c => cls c = true) (list_ascii_of_string s).

Definition lower (c : ascii) : ascii :=
  let n := nat_of_ascii c in
  if (65 <=? n)%nat && (n <=? 90)%nat then ascii_of_nat (n + 32) else c.

(** [s.toLowerCase()]. *)
Fixpoint toLowerCase (s : string) : string :=
  match s with
  | EmptyString => EmptyString
  | String c r => String (lower c) (toLowerCase r)
  end.

(** The class [[\s,]]. *)
Definition is_space_or_comma (c : ascii) : bool := is_space c || (c =? ",")%char.

(** The class [[MmLlHhVvCcSsQqTtAaZz]]. *)
Definition is_command (c : ascii) : bool :=
  existsb (Ascii.eqb c) (list_ascii_of_string "MmLlHhVvCcSsQqTtAaZz").

End Str.

(** ** Exact real arithmetic *)

(** The finite numbers without rounding.  A quotient by zero, which is
    infinite or [NaN] in the program, has no value here; the properties
    stated at this instance keep their divisors away from zero. *)
Module Exact.

#[export] Instance Rlt_decision (x y : R) : Decision (x < y)%R := Rlt_dec x y.
#[export] Instance Rle_decision (x y : R) : Decision (x <= y)%R := Rle_dec x y.
#[export] Instance Req_decision (x y : R) : Decision (x = y) := Req_dec_T x y.

(** [Math.round]: the nearest integer, a tie going up. *)
Definition Rround (x : R) : R := IZR (Zfloor (x + / 2)).

(** [x.toFixed(2)] read back by [parseFloat]: for [|x| < 10^21] the integer
    [n] nearest to [100 |x|] (the larger one on a tie) over 100, with the
    sign of [x]; a larger [x] is printed in full and read back unchanged. *)
Definition RtoFixed2 (x : R) : R :=
  if decide (10 ^ 21 <= Rabs x)%R then x
  else if decide (x < 0)%R then (- (IZR (Zfloor (100 * - x + / 2)) / 100))%R
  else (IZR (Zfloor (100 * x + / 2)) / 100)%R.

#[export] Instance arith : Arith R := {|
  add := Rplus; sub := Rminus; mul := Rmult; div := Rdiv; neg := Ropp;
  lt x y := bool_decide (x < y)%R;
  le x y := bool_decide (x <= y)%R;
  seq x y := bool_decide (x = y);
  lit m k := (IZR m / 10 ^ k)%R;
  Math_min := Rmin; Math_max := Rmax; Math_abs := Rabs
|}.

#[export] Instance mathlib : MathLib R := {|
  Math_round := Rround;
  Math_hypot x y := R_sqrt.sqrt (x * x + y * y)%R;
  toFixed2 := RtoFixed2
|}.


Definition in_zoom_range (z : R) : Prop := (/ 10 <= z <= 5)%R.

End Exact.

(** ** binary64 *)

(** The numbers of the engine.  The arithmetic is the primitive one; the
    library functions are computed on the exact value of their argument
    and rounded once, to the nearest binary64 number. *)
Module Binary64.

Local Open Scope float_scope.

(** The correctly rounded quotient of two positive integers. *)
Definition of_ratio (s : bool) (p q : positive) : float :=
  SF2Prim (SFdiv prec emax (S754_finite s p 0) (S754_finite false q 0)).

Definition of_Z (n : Z) : float :=
  SF2Prim (binary_normalize prec emax n 0 false).

Definition lit64 (m : Z) (k : nat) : float :=
  match m with
  | Z0 => PrimFloat.zero
  | Zpos p => of_ratio false p (Z.to_pos (10 ^ Z.of_nat k))
  | Zneg p => of_ratio true p (Z.to_pos (10 ^ Z.of_nat k))
  end.

(** [Math.min] and [Math.max]: [NaN] if either argument is, and [-0] below
    [+0]. *)
Definition min64 (x y : float) : float :=
  if is_nan x || is_nan y then nan
  else if x <? y then x else if y <? x then y
  else if get_sign x then x else y.

Definition max64 (x y : float) : float :=
  if is_nan x || is_nan y then nan
  else if x <? y then y else if y <? x then x
  else if get_sign x then y else x.

Definition signed_zero (s : bool) : float := if s then neg_zero else PrimFloat.zero.

(** [Math.round]: [floor (x + 1/2)] on the exact value of [x]; a result of
    zero keeps the sign of [x]. *)
Definition round64 (x : float) : float :=
  match Prim2SF x with
  | S754_finite s m e =>
      if (0 <=? e)%Z then x
      else
        let v := if s then Zneg m else Zpos m in
        let n := ((2 * v + 2 ^ (- e)) / 2 ^ (1 - e))%Z in
        if (n =? 0)%Z then signed_zero s else of_Z n
  | _ => x
  end.

(** [parseFloat(x.toFixed(2))]: below [10^21] the integer nearest to
    [100 |x|] (the larger on a tie), over 100 and rounded to binary64,
    with the sign of [x]; from [10^21] on, [NaN] and the infinities the
    text printed reads back as [x]. *)
Definition toFixed2_64 (x : float) : float :=
  match Prim2SF x with
  | S754_finite s m e =>
      if of_Z (10 ^ 21) <=? abs x then x
      else
        let n := (if (0 <=? e)%Z then 100 * Zpos m * 2 ^ e
                  else (200 * Zpos m + 2 ^ (- e)) / 2 ^ (1 - e))%Z in
        match n with
        | Zpos p => of_ratio s p 100
        | _ => signed_zero s
        end
  | S754_zero _ => PrimFloat.zero
  | _ => x
  end.

(** [Math.hypot] of two arguments.  The language leaves its accuracy to the
    engine; this is the correctly rounded square root of the exact sum of
    squares. *)
Definition hypot64 (x y : float) : float :=
  if is_infinity x || is_infinity y then infinity
  else if is_nan x || is_nan y then nan
  else
    match Prim2SF x, Prim2SF y with
    | S754_finite _ mx ex, S754_finite _ my ey =>
        let e := Z.min ex ey in
        let m := (Zpos mx ^ 2 * 2 ^ (2 * (ex - e)) + Zpos my ^ 2 * 2 ^ (2 * (ey - e)))%Z in
        SF2Prim (SFsqrt prec emax (S754_finite false (Z.to_pos m) (2 * e)))
    | S754_finite _ _ _, _ => abs x
    | _, S754_finite _ _ _ => abs y
    | _, _ => PrimFloat.zero
    end.

(** *** [parseFloat] *)

Fixpoint span_digits (s : string) : list ascii * string :=
  match s with
  | String c r =>
      if Str.is_digit c then let '(ds, t) := span_digits r in (c :: ds, t) else ([], s)
  | EmptyString => ([], s)
  end.

Definition digits_value (ds : list ascii) : Z :=
  fold_left (fun acc c => (10 * acc + (Z.of_nat (nat_of_ascii c) - 48))%Z) ds 0%Z.

Definition take_sign (s : string) : bool * string :=
  match s with
  | String "-" r => (true, r)
  | String "+" r => (false, r)
  | _ => (false, s)
  end.

(** The exponent part [e], [E] with an optional sign and at least one
    digit; anything else is no exponent. *)
Definition exponent_part (s : string) : Z :=
  match s with
  | String c r =>
      if (c =? "e")%char || (c =? "E")%char then
        let '(sg, r') := take_sign r in
        match span_digits r' with
        | ([], _) => 0%Z
        | (ds, _) => if sg then (- digits_value ds)%Z else digits_value ds
        end
      else 0%Z
  | EmptyString => 0%Z
  end.

(** [m * 10^e], correctly rounded. *)
Definition of_decimal (s : bool) (m e : Z) : float :=
  match m with
  | Zpos p =>
      if (0 <=? e)%Z then of_ratio s (p * Z.to_pos (10 ^ e)) 1
      else of_ratio s p (Z.to_pos (10 ^ (- e)))
  | _ => signed_zero s
  end.

(** The longest prefix of the trimmed text that is a decimal literal
    ([Infinity], or digits with an optional fraction and exponent, each
    with an optional sign), rounded to binary64; [NaN] if there is none. *)
Definition parseFloat64 (str : string) : float :=
  let '(s, r) := take_sign (Str.trimStart str) in
  if String.prefix "Infinity" r then (if s then neg_infinity else infinity)
  else
    let '(ip, r1) := span_digits r in
    let '(fp, r2) :=
      match r1 with
      | String "." t => span_digits t
      | _ => ([], r1)
      end in
    match ip, fp with
    | [], [] => nan
    | _, _ =>
        of_decimal s (digits_value (ip ++ fp))
                   (exponent_part r2 - Z.of_nat (length fp))
    end.

#[export] Instance arith : Arith float := {|
  add := PrimFloat.add; sub := PrimFloat.sub; mul := PrimFloat.mul;
  div := PrimFloat.div; neg := PrimFloat.opp;
  lt := PrimFloat.ltb; le := PrimFloat.leb; seq := PrimFloat.eqb;
  lit := lit64;
  Math_min := min64; Math_max := max64; Math_abs := PrimFloat.abs
|}.

#[export] Instance mathlib : MathLib float := {|
  Math_round := round64; Math_hypot := hypot64; toFixed2 := toFixed2_64
|}.

#[export] Instance nonfinite : NonFinite float := {|
  Infinity := infinity; parseFloat := parseFloat64
|}.

End Binary64.

(** ** The shape model *)

Section Shapes.
Context {num : Type}.

(** A point [{x, y}] in world coordinates. *)
Record Point := mkPoint { pt_x : num; pt_y : num }.

(** [Shape = PenShape | RectShape | CircleShape | LineShape], each with the
    [id] of [BaseShape]. *)
Inductive Shape :=
  | Pen (id : string) (points : list Point)
  | Rect (id : string) (x y w h : num)
  | Circle (id : string) (cx cy r : num)
  | Line (id : string) (x1 y1 x2 y2 : num).

Definition shape_id (shape : Shape) : string :=
  match shape with
  | Pen id _ | Rect id _ _ _ _ | Circle id _ _ _ | Line id _ _ _ _ => id
  end.

(** The box [{x, y, w, h}] that [getShapeBounds] returns. *)
Record Bounds := mkBounds { b_x : num; b_y : num; b_w : num; b_h : num }.

(** The x and the y coordinates a shape stores (positions, not extents). *)
Definition xCoords (shape : Shape) : list num :=
  match shape with
  | Pen _ points => map pt_x points
  | Rect _ x _ _ _ => [x]
  | Circle _ cx _ _ => [cx]
  | Line _ x1 _ x2 _ => [x1; x2]
  end.

Definition yCoords (shape : Shape) : list num :=
  match shape with
  | Pen _ points => map pt_y points
  | Rect _ _ y _ _ => [y]
  | Circle _ _ cy _ => [cy]
  | Line _ _ y1 _ y2 => [y1; y2]
  end.

(** The extents that a translation does not touch: a rect's [w] and [h]
    and a circle's [r]. *)
Definition extents (s : Shape) : list num :=
  match s with
  | Rect _ _ _ w h => [w; h]
  | Circle _ _ _ r => [r]
  | _ => []
  end.

Context `{Arith num}.
Local Open Scope js_scope.

(** [moveShapeBy]: a copy of the shape with every position shifted. *)
Definition moveShapeBy (shape : Shape) (deltaX deltaY : num) : Shape :=
  match shape with
  | Pen id points =>
      Pen id (map (fun p => mkPoint (pt_x p + deltaX) (pt_y p + deltaY)) points)
  | Rect id x y w h => Rect id (x + deltaX) (y + deltaY) w h
  | Circle id cx cy r => Circle id (cx + deltaX) (cy + deltaY) r
  | Line id x1 y1 x2 y2 =>
      Line id (x1 + deltaX) (y1 + deltaY) (x2 + deltaX) (y2 + deltaY)
  end.

Context `{MathLib num}.

Definition GRID_SIZE : num := int 20.

Definition snap (n : num) : num := Math_round (n / GRID_SIZE) * GRID_SIZE.

(** *** Geometry kernel *)

Definition distanceToSegment (p a b : Point) : num :=
  let dx := pt_x b - pt_x a in
  let dy := pt_y b - pt_y a in
  let length := Math_hypot dx dy in
  if length === int 0 then Math_hypot (pt_x p - pt_x a) (pt_y p - pt_y a)
  else
    let t := Math_max (int 0) (Math_min (int 1)
               (((pt_x p - pt_x a) * dx + (pt_y p - pt_y a) * dy) / (length * length))) in
    let projX := pt_x a + t * dx in
    let projY := pt_y a + t * dy in
    Math_hypot (pt_x p - projX) (pt_y p - projY).

(** [points[i]]: [None] is the [undefined] of a read outside the array. *)
Definition point_at (points : list Point) (i : Z) : option Point :=
  if (i <? 0)%Z then None else points !! Z.to_nat i.

(** The segment loop of the pen case,
    [for (let i = 0; i < points.length - 1; i++)], entered at index [i] with
    [n] iterations to go.  It returns the indices it read, in order, and its
    result: [Some true] on a hit, [Some false] when it runs out, [None] for
    the [TypeError] that a coordinate of [undefined] raises. *)
Fixpoint pen_loop (point : Point) (points : list Point) (hitThreshold : num)
    (n : nat) (i : Z) : list Z * option bool :=
  match n with
  | O => ([], Some false)
  | S n' =>
      match point_at points i, point_at points (i + 1) with
      | Some p1, Some p2 =>
          if distanceToSegment point p1 p2 <? hitThreshold
          then ([i; (i + 1)%Z], Some true)
          else
            let '(reads, res) := pen_loop point points hitThreshold n' (i + 1) in
            (i :: (i + 1)%Z :: reads, res)
      | _, _ => ([i; (i + 1)%Z], None)
      end
  end.

Definition pen_hit (zoom : num) (point : Point) (points : list Point)
    : list Z * option bool :=
  pen_loop point points (int 10 / zoom)
           (Z.to_nat (Z.of_nat (length points) - 1)) 0.

Definition isPointInShape (zoom : num) (point : Point) (shape : Shape)
    : option bool :=
  let hitThreshold := int 10 / zoom in
  match shape with
  | Pen _ points => snd (pen_hit zoom point points)
  | Rect _ x y w h =>
      Some ((pt_x point >=? x) && (pt_x point <=? x + w) &&
            (pt_y point >=? y) && (pt_y point <=? y + h))
  | Circle _ cx cy r =>
      let dist := Math_hypot (pt_x point - cx) (pt_y point - cy) in
      Some ((Math_abs (dist - r) <? hitThreshold) || (dist <? r))
  | Line _ x1 y1 x2 y2 =>
      Some (distanceToSegment point (mkPoint x1 y1) (mkPoint x2 y2) <? hitThreshold)
  end.

Context `{NonFinite num}.

Definition getShapeBounds (shape : Shape) : option Bounds :=
  match shape with
  | Pen _ points =>
      if (length points =? 0)%nat then None
      else
        let '(minX, minY, maxX, maxY) :=
          fold_left
            (fun '(minX, minY, maxX, maxY) p =>
               (Math_min minX (pt_x p), Math_min minY (pt_y p),
                Math_max maxX (pt_x p), Math_max maxY (pt_y p)))
            points (Infinity, Infinity, - Infinity, - Infinity) in
        Some (mkBounds minX minY (maxX - minX) (maxY - minY))
  | Rect _ x y w h => Some (mkBounds x y w h)
  | Circle _ cx cy r => Some (mkBounds (cx - r) (cy - r) (r * int 2) (r * int 2))
  | Line _ x1 y1 x2 y2 =>
      Some (mkBounds (Math_min x1 x2) (Math_min y1 y2)
                     (Math_abs (x2 - x1)) (Math_abs (y2 - y1)))
  end.

End Shapes.

Arguments Point : clear implicits.
Arguments Shape : clear implicits.
Arguments Bounds : clear implicits.

(** ** The component state and its handlers *)

(** [Tool = "pen" | "rect" | "circle" | "line" | "select"]. *)
Inductive Tool := ToolPen | ToolRect | ToolCircle | ToolLine | ToolSelect.

#[export] Instance Tool_eq_dec : EqDecision Tool.
Proof. solve_decision. Defined.

Section Component.
Context {num : Type} `{Arith num}.
Local Open Scope js_scope.

(** The [useState] cells of [Home]. *)
Record State := mkState {
  tool : Tool;
  isDrawing : bool;
  isPanning : bool;
  isDragging : bool;
  start : Point num;
  showGrid : bool;
  showAxes : bool;
  zoom : num;
  pan : Point num;
  shapes : list (Shape num);
  selectedShapeIds : gset string;
  currentPenPoints : list (Point num);
  panStart : Point num;
  dragOffset : Point num
}.

(** The setters; each replaces one cell. *)
Definition setTool (v : Tool) (st : State) : State :=
  mkState v (isDrawing st) (isPanning st) (isDragging st) (start st)
    (showGrid st) (showAxes st) (zoom st) (pan st) (shapes st)
    (selectedShapeIds st) (currentPenPoints st) (panStart st) (dragOffset st).
Definition setIsDrawing (v : bool) (st : State) : State :=
  mkState (tool st) v (isPanning st) (isDragging st) (start st)
    (showGrid st) (showAxes st) (zoom st) (pan st) (shapes st)
    (selectedShapeIds st) (currentPenPoints st) (panStart st) (dragOffset st).
Definition setIsPanning (v : bool) (st : State) : State :=
  mkState (tool st) (isDrawing st) v (isDragging st) (start st)
    (showGrid st) (showAxes st) (zoom st) (pan st) (shapes st)
    (selectedShapeIds st) (currentPenPoints st) (panStart st) (dragOffset st).
Definition setIsDragging (v : bool) (st : State) : State :=
  mkState (tool st) (isDrawing st) (isPanning st) v (start st)
    (showGrid st) (showAxes st) (zoom st) (pan st) (shapes st)
    (selectedShapeIds st) (currentPenPoints st) (panStart st) (dragOffset st).
Definition setStart (v : Point num) (st : State) : State :=
  mkState (tool st) (isDrawing st) (isPanning st) (isDragging st) v
    (showGrid st) (showAxes st) (zoom st) (pan st) (shapes st)
    (selectedShapeIds st) (currentPenPoints st) (panStart st) (dragOffset st).
Definition setZoom (v : num) (st : State) : State :=
  mkState (tool st) (isDrawing st) (isPanning st) (isDragging st) (start st)
    (showGrid st) (showAxes st) v (pan st) (shapes st)
    (selectedShapeIds st) (currentPenPoints st) (panStart st) (dragOffset st).
Definition setPan (v : Point num) (st : State) : State :=
  mkState (tool st) (isDrawing st) (isPanning st) (isDragging st) (start st)
    (showGrid st) (showAxes st) (zoom st) v (shapes st)
    (selectedShapeIds st) (currentPenPoints st) (panStart st) (dragOffset st).
Definition setShapes (v : list (Shape num)) (st : State) : State :=
  mkState (tool st) (isDrawing st) (isPanning st) (isDragging st) (start st)
    (showGrid st) (showAxes st) (zoom st) (pan st) v
    (selectedShapeIds st) (currentPenPoints st) (panStart st) (dragOffset st).
Definition setSelectedShapeIds (v : gset string) (st : State) : State :=
  mkState (tool st) (isDrawing st) (isPanning st) (isDragging st) (start st)
    (showGrid st) (showAxes st) (zoom st) (pan st) (shapes st)
    v (currentPenPoints st) (panStart st) (dragOffset st).
Definition setCurrentPenPoints (v : list (Point num)) (st : State) : State :=
  mkState (tool st) (isDrawing st) (isPanning st) (isDragging st) (start st)
    (showGrid st) (showAxes st) (zoom st) (pan st) (shapes st)
    (selectedShapeIds st) v (panStart st) (dragOffset st).
Definition setPanStart (v : Point num) (st : State) : State :=
  mkState (tool st) (isDrawing st) (isPanning st) (isDragging st) (start st)
    (showGrid st) (showAxes st) (zoom st) (pan st) (shapes st)
    (selectedShapeIds st) (currentPenPoints st) v (dragOffset st).
Definition setDragOffset (v : Point num) (st : State) : State :=
  mkState (tool st) (isDrawing st) (isPanning st) (isDragging st) (start st)
    (showGrid st) (showAxes st) (zoom st) (pan st) (shapes st)
    (selectedShapeIds st) (currentPenPoints st) (panStart st) v.

(** The initial values of the cells. *)
Definition initialState : State :=
  mkState ToolPen false false false (mkPoint (int 0) (int 0)) true true (int 1)
    (mkPoint (int 0) (int 0)) [] ∅ [] (mkPoint (int 0) (int 0))
    (mkPoint (int 0) (int 0)).

(** What a handler reads of the canvas element: the corner of its bounding
    client rectangle, and whether [getContext("2d")] gives a context. *)
Record Canvas := mkCanvas { rect_left : num; rect_top : num; hasContext : bool }.

Record MouseEvent := mkMouseEvent {
  clientX : num; clientY : num; button : Z; ctrlKey : bool; shiftKey : bool
}.

Record WheelEvent := mkWheelEvent {
  wheel_clientX : num; wheel_clientY : num; deltaY : num
}.

(** *** Viewport *)

(** Canvas coordinates of an event, [e.clientX - rect.left]. *)
Definition canvasPoint (canvas : Canvas) (cx cy : num) : Point num :=
  mkPoint (cx - rect_left canvas) (cy - rect_top canvas).

(** Screen to world, the arithmetic of [pos] and of [handleWheel]. *)
Definition screenToWorld (zoom : num) (pan : Point num) (s : Point num) : Point num :=
  mkPoint ((pt_x s - pt_x pan) / zoom) ((pt_y s - pt_y pan) / zoom).

Definition pos (st : State) (canvas : Canvas) (e : MouseEvent) : Point num :=
  screenToWorld (zoom st) (pan st) (canvasPoint canvas (clientX e) (clientY e)).

(** World to screen: the matrix that [redrawCanvas] installs with
    [ctx.setTransform(zoom, 0, 0, zoom, pan.x, pan.y)], applied to a point
    ([setTransform(a, b, c, d, e, f)] maps [(x, y)] to
    [(a x + c y + e, b x + d y + f)]). *)
Definition applyTransform (a b c d e f : num) (p : Point num) : Point num :=
  mkPoint (a * pt_x p + c * pt_y p + e) (b * pt_x p + d * pt_y p + f).

Definition worldToScreen (zoom : num) (pan : Point num) (w : Point num) : Point num :=
  applyTransform zoom (int 0) (int 0) zoom (pt_x pan) (pt_y pan) w.

Context `{MathLib num}.

Definition handleZoomIn (st : State) : State :=
  setZoom (Math_min (toFixed2 (zoom st * lit 12 1)) (int 5)) st.

Definition handleZoomOut (st : State) : State :=
  setZoom (Math_max (toFixed2 (zoom st / lit 12 1)) (lit 1 1)) st.


(** The zoom a wheel tick picks. *)
Definition wheelZoom (zoom deltaY : num) : num :=
  let delta := if deltaY >? int 0 then lit 9 1 else lit 11 1 in
  Math_min (Math_max (toFixed2 (zoom * delta)) (lit 1 1)) (int 5).

(** [handleWheel]; [canvas] is [canvasRef.current], [None] when it is
    [null]. *)
Definition handleWheel (canvas : option Canvas) (e : WheelEvent) (st : State) : State :=
  match canvas with
  | None => st
  | Some cv =>
      let canvasX := wheel_clientX e - rect_left cv in
      let canvasY := wheel_clientY e - rect_top cv in
      let worldX := (canvasX - pt_x (pan st)) / zoom st in
      let worldY := (canvasY - pt_y (pan st)) / zoom st in
      let newZoom := wheelZoom (zoom st) (deltaY e) in
      let newPanX := canvasX - worldX * newZoom in
      let newPanY := canvasY - worldY * newZoom in
      setPan (mkPoint newPanX newPanY) (setZoom newZoom st)
  end.

(** *** Keyboard and toolbar *)

(** The [keydown] listener. *)
Definition handleKeyDown (key : string) (st : State) : State :=
  if (key =? "Delete")%string && (0 <? size (selectedShapeIds st))%nat then
    setSelectedShapeIds ∅
      (setShapes
         (filter (fun s => shape_id s ∉ selectedShapeIds st) (shapes st)) st)
  else st.


Definition onDelete (st : State) : State :=
  setSelectedShapeIds ∅
    (setShapes
       (filter (fun s => shape_id s ∉ selectedShapeIds st) (shapes st)) st).

(** *** Mouse *)

(** [shapes.findLast(pred)], with a [pred] that may raise. *)
Fixpoint findLast (pred : Shape num -> option bool) (l : list (Shape num))
    : option (option (Shape num)) :=
  match l with
  | [] => Some None
  | s :: r =>
      match findLast pred r with
      | Some None => b ← pred s; Some (if b : bool then Some s else None)
      | found => found
      end
  end.

Context `{NonFinite num}.

(** [startDraw] (mouse down).  [None] is an exception escaping the
    handler. *)
Definition startDraw (canvas : Canvas) (e : MouseEvent) (st : State) : option State :=
  if (button e =? 1)%Z || ((button e =? 0)%Z && ctrlKey e) then
    Some (setPanStart
            (mkPoint (clientX e - pt_x (pan st)) (clientY e - pt_y (pan st)))
            (setIsPanning true st))
  else
    let p := pos st canvas e in
    if decide (tool st = ToolSelect) then
      clicked ← findLast (isPointInShape (zoom st) p) (shapes st);
      match clicked with
      | Some clickedShape =>
          if shiftKey e then
            let prev := selectedShapeIds st in
            Some (setSelectedShapeIds
                    (if decide (shape_id clickedShape ∈ prev)
                     then prev ∖ {[ shape_id clickedShape ]}
                     else prev ∪ {[ shape_id clickedShape ]}) st)
          else
            let st1 := setIsDragging true
                         (setSelectedShapeIds {[ shape_id clickedShape ]} st) in
            match getShapeBounds clickedShape with
            | Some bounds =>
                Some (setDragOffset
                        (mkPoint (pt_x p - b_x bounds) (pt_y p - b_y bounds)) st1)
            | None => Some st1
            end
      | None => Some (setSelectedShapeIds ∅ st)
      end
    else
      let s := mkPoint (snap (pt_x p)) (snap (pt_y p)) in
      let st1 := setStart s (setIsDrawing true st) in
      Some (if decide (tool st = ToolPen) then setCurrentPenPoints [s] st1 else st1).

(** [draw] (mouse move). *)
Definition draw (canvas : Canvas) (e : MouseEvent) (st : State) : State :=
  if isPanning st then
    setPan (mkPoint (clientX e - pt_x (panStart st)) (clientY e - pt_y (panStart st))) st
  else if isDragging st && bool_decide (tool st = ToolSelect) then
    let p := pos st canvas e in
    let deltaX := pt_x p - pt_x (dragOffset st) in
    let deltaY := pt_y p - pt_y (dragOffset st) in
    setShapes
      (map (fun shape =>
              if decide (shape_id shape ∈ selectedShapeIds st)
              then moveShapeBy shape deltaX deltaY else shape)
           (shapes st)) st
  else if negb (isDrawing st) then st
  else if negb (hasContext canvas) then st
  else
    let p := pos st canvas e in
    let curr := mkPoint (snap (pt_x p)) (snap (pt_y p)) in
    if decide (tool st = ToolPen)
    then setCurrentPenPoints (currentPenPoints st ++ [curr]) st
    else st.

(** [endDraw] (mouse up and mouse leave); [id] is the value that
    [generateId()] returns in this call. *)
Definition endDraw (canvas : Canvas) (id : string) (e : MouseEvent) (st : State) : State :=
  if isPanning st then setIsPanning false st
  else if isDragging st then setIsDragging false st
  else if negb (isDrawing st) then st
  else
    let st1 := setIsDrawing false st in
    if negb (hasContext canvas) then st1
    else
      let '(newShape, st2) :=
        if bool_decide (tool st = ToolPen) && (1 <? length (currentPenPoints st))%nat then
          (Some (Pen id (currentPenPoints st)), setCurrentPenPoints [] st1)
        else if bool_decide (tool st ≠ ToolPen) && bool_decide (tool st ≠ ToolSelect) then
          let p := pos st canvas e in
          let curr := mkPoint (snap (pt_x p)) (snap (pt_y p)) in
          let x0 := pt_x (start st) in
          let y0 := pt_y (start st) in
          (match tool st with
           | ToolRect => Some (Rect id x0 y0 (pt_x curr - x0) (pt_y curr - y0))
           | ToolCircle =>
               Some (Circle id x0 y0 (Math_hypot (pt_x curr - x0) (pt_y curr - y0)))
           | ToolLine => Some (Line id x0 y0 (pt_x curr) (pt_y curr))
           | _ => None
           end, st1)
        else (None, st1) in
      match newShape with
      | Some shape => setShapes (shapes st ++ [shape]) st2
      | None => st2
      end.

End Component.

Arguments State : clear implicits.
Arguments Canvas : clear implicits.
Arguments MouseEvent : clear implicits.
Arguments WheelEvent : clear implicits.

(** ** The SVG importer *)

Section Importer.
Context {num : Type} `{Arith num} `{NonFinite num}.
Local Open Scope js_scope.

(** An element: its tag name and its attributes in document order. *)
Record Element := mkElement {
  tagName : string;
  attributes : list (string * string)
}.

(** [el.getAttribute(name)]; [None] is [null]. *)
Definition getAttribute (el : Element) (name : string) : option string :=
  snd <$> find (fun kv => (fst kv =? name)%string) (attributes el).

(** [a || b] on an attribute: [b] when [a] is [null] or empty. *)
Definition or_default (a : option string) (b : string) : string :=
  match a with
  | Some s => if Str.is_empty s then b else s
  | None => b
  end.

Fixpoint pair_up (tokens : list string) : list (Point num) :=
  match tokens with
  | t0 :: t1 :: rest => mkPoint (parseFloat t0) (parseFloat t1) :: pair_up rest
  | _ => []
  end.

Definition parsePoints (pointsAttr : string) : list (Point num) :=
  pair_up (Str.split_runs Str.is_space_or_comma (Str.trim pointsAttr)).

(** The numbers of one argument group,
    [(values[i] || "").trim().split(/[\s,]+/).filter(s => s).map(parseFloat)]. *)
Definition path_nums (values : list string) (i : nat) : list num :=
  map parseFloat
    (filter (fun s => Str.is_empty s = false)
       (Str.split_runs Str.is_space_or_comma (Str.trim (nth i values EmptyString)))).

(** The loop state of [parsePath]: the index [i], [current] and [points]. *)
Definition path_state : Type := nat * Point num * list (Point num).

(** One iteration of [for (const cmd of commands)]. *)
Definition path_step (values : list string) (st : path_state) (cmd : ascii) : path_state :=
  let '(i, current, points) := st in
  let nums := path_nums values i in
  let i' := S i in
  if (cmd =? "M")%char || (cmd =? "m")%char then
    match nums with
    | n0 :: n1 :: _ =>
        let current' :=
          if (cmd =? "m")%char
          then mkPoint (pt_x current + n0) (pt_y current + n1)
          else mkPoint n0 n1 in
        (i', current', points ++ [current'])
    | _ => (i', current, points)
    end
  else if (cmd =? "L")%char || (cmd =? "l")%char then
    match nums with
    | n0 :: n1 :: _ =>
        let current' :=
          if (cmd =? "l")%char
          then mkPoint (pt_x current + n0) (pt_y current + n1)
          else mkPoint n0 n1 in
        (i', current', points ++ [current'])
    | _ => (i', current, points)
    end
  else (i', current, points).

(** The commands that [parsePath] has a case for. *)
Definition is_move_or_line (cmd : ascii) : bool :=
  (cmd =? "M")%char || (cmd =? "m")%char || (cmd =? "L")%char || (cmd =? "l")%char.

Definition path_values (d : string) : list string :=
  filter (fun s => Str.is_empty (Str.trim s) = false)
         (Str.split_chars Str.is_command d).

Definition parsePath (d : string) : list (Point num) :=
  let commands := Str.match_chars Str.is_command d in
  let values := path_values d in
  snd (fold_left (path_step values) commands
                 (O, mkPoint (int 0) (int 0), [])).

(** [parseFloat(el.getAttribute(name) || "0")]. *)
Definition numAttr (el : Element) (name : string) : num :=
  parseFloat (or_default (getAttribute el name) "0").

(** [parseSVGElement]; [id] is the value of [generateId()] in this call. *)
Definition parseSVGElement (id : string) (el : Element) : option (Shape num) :=
  let tag := Str.toLowerCase (tagName el) in
  if (tag =? "rect")%string then
    Some (Rect id (numAttr el "x") (numAttr el "y")
               (numAttr el "width") (numAttr el "height"))
  else if (tag =? "circle")%string then
    Some (Circle id (numAttr el "cx") (numAttr el "cy") (numAttr el "r"))
  else if (tag =? "ellipse")%string then
    let rx := numAttr el "rx" in
    let ry := numAttr el "ry" in
    Some (Circle id (numAttr el "cx") (numAttr el "cy") ((rx + ry) / int 2))
  else if (tag =? "line")%string then
    Some (Line id (numAttr el "x1") (numAttr el "y1")
               (numAttr el "x2") (numAttr el "y2"))
  else if (tag =? "polyline")%string || (tag =? "polygon")%string then
    match getAttribute el "points" with
    | None => None
    | Some pointsAttr =>
        if Str.is_empty pointsAttr then None
        else
          let points := parsePoints pointsAttr in
          if (length points <? 2)%nat then None else Some (Pen id points)
    end
  else if (tag =? "path")%string then
    match getAttribute el "d" with
    | None => None
    | Some d =>
        if Str.is_empty d then None
        else
          let pathPoints := parsePath d in
          if (length pathPoints <? 2)%nat then None else Some (Pen id pathPoints)
    end
  else None.

(** The part of [handleImportSVG] after the document is parsed: [els] are
    the selected elements in document order, each with the id generated
    for it. *)
Definition importShapes (els : list (string * Element)) (st : State num) : State num :=
  let importedShapes := omap (fun '(id, el) => parseSVGElement id el) els in
  if (0 <? length importedShapes)%nat
  then setShapes (shapes st ++ importedShapes) st
  else st.

End Importer.

Arguments Element : clear implicits.


(** ** Example data *)

Module Examples.
Import Exact Binary64.
Local Open Scope js_scope.



(** A rect on the grid, to be dragged by 9.9. *)
Definition grid_rect : Shape float := Rect "r" (int 60) (int 40) (int 20) (int 20).

Definition zigzag : Shape float :=
  Pen "p" [mkPoint (int 20) (int 40); mkPoint (int 60) (int (-80))].

(** A scene of three shapes with the middle one selected. *)
Definition scene3 : list (Shape float) :=
  [Rect "a" (int 0) (int 0) (int 40) (int 40);
   Circle "b" (int 100) (int 100) (int 20);
   Line "c" (int 0) (int 0) (int 20) (int 60)].

Definition selected_b : State float :=
  setSelectedShapeIds {[ "b"%string ]}
    (setShapes scene3 (setTool ToolSelect initialState)).

(** The canvas at the corner of the page, with its context. *)
Definition canvas0 : Canvas float := mkCanvas (int 0) (int 0) true.

(** A plain press or release of the primary button. *)
Definition mouseAt (x y : Z) : MouseEvent float :=
  mkMouseEvent (int x) (int y) 0 false false.

(** The state in the middle of a rect gesture that started at the origin. *)
Definition drawing_rect : State float :=
  setIsDrawing true (setTool ToolRect initialState).

(** Two subpaths, the first one closed, and the same without the close. *)
Definition two_subpaths : string := "M0,0 L10,10 Z M5,5 L6,6".
Definition two_subpaths_open : string := "M0,0 L10,10 M5,5 L6,6".

(** A view in exact arithmetic: zoom 2, pan (40, 20), and a wheel tick
    on a canvas whose corner is at (8, 16). *)
Definition zoomed_view : State R :=
  setPan (mkPoint 40%R 20%R) (setZoom 2%R initialState).

Definition canvas_R : Canvas R := mkCanvas 8%R 16%R true.


End Examples.

(** ** Vocabulary of the further properties *)

Module ExactVocabulary.
Import Exact.
Local Open Scope R_scope.

(** A coordinate on the grid, a multiple of 20, and a point or a shape
    all of whose measures are on the grid; a circle's radius, a distance,
    is only asked not to be negative. *)
Definition on_grid (c : R) : Prop := exists k : Z, c = 20 * IZR k.

Definition grid_point (p : Point R) : Prop := on_grid (pt_x p) /\ on_grid (pt_y p).

Definition shape_on_grid (s : Shape R) : Prop :=
  match s with
  | Pen _ points => Forall grid_point points
  | Rect _ x y w h => on_grid x /\ on_grid y /\ on_grid w /\ on_grid h
  | Circle _ cx cy r => on_grid cx /\ on_grid cy /\ 0 <= r
  | Line _ x1 y1 x2 y2 => on_grid x1 /\ on_grid y1 /\ on_grid x2 /\ on_grid y2
  end.

(** The point at parameter [s] of the segment from [a] to [b]. *)
Definition along (a b : Point R) (s : R) : Point R :=
  mkPoint (pt_x a + s * (pt_x b - pt_x a)) (pt_y a + s * (pt_y b - pt_y a)).

(** The distance between two points. *)
Definition dist (p q : Point R) : R :=
  R_sqrt.sqrt ((pt_x p - pt_x q) * (pt_x p - pt_x q) + (pt_y p - pt_y q) * (pt_y p - pt_y q)).

End ExactVocabulary.

Section Vocabulary.
Context {num : Type} `{Arith num} `{MathLib num}.

(** The modes of the interaction: none active, and at most one active. *)
Definition idle (st : State num) : Prop :=
  isDrawing st = false /\ isPanning st = false /\ isDragging st = false.

Definition single_mode (st : State num) : Prop :=
  (Nat.b2n (isDrawing st) + Nat.b2n (isPanning st) + Nat.b2n (isDragging st) <= 1)%nat.


(** A pen shape as a gesture or an import commits it: two points or more. *)
Definition committed_pen (s : Shape num) : Prop :=
  match s with
  | Pen _ points => (2 <= length points)%nat
  | _ => True
  end.


(** No two shapes of the scene share an id. *)
Definition unique_ids (st : State num) : Prop :=
  NoDup (map shape_id (shapes st)).

(** The button and modifier that start a pan. *)
Definition isPanButton (e : MouseEvent num) : bool :=
  (button e =? 1)%Z || ((button e =? 0)%Z && ctrlKey e).

(** The snapped world point of a mouse event, as [startDraw], [draw] and
    [endDraw] compute it. *)
Definition snapped (st : State num) (canvas : Canvas num) (e : MouseEvent num)
    : Point num :=
  mkPoint (snap (pt_x (pos st canvas e))) (snap (pt_y (pos st canvas e))).

(** A run of mouse moves. *)
Definition drawMoves (canvas : Canvas num) (es : list (MouseEvent num))
    (st : State num) : State num :=
  fold_left (fun s e => draw canvas e s) es st.

(** The segment from index [i] of a pen path is within the hit threshold
    of the point. *)
Definition segment_hit (zoom : num) (point : Point num) (points : list (Point num))
    (i : nat) : Prop :=
  exists p1 p2, points !! i = Some p1 /\ points !! S i = Some p2 /\
    lt (distanceToSegment point p1 p2) (div (int 10) zoom) = true.



Context `{NonFinite num}.

(** The shapes that an import adds: one for each element that
    [parseSVGElement] accepts, in document order. *)
Definition imported (els : list (string * Element)) : list (Shape num) :=
  omap (fun '(id, el) => parseSVGElement id el) els.



End Vocabulary.

(** ** Further example data *)

Module MoreExamples.
Import Exact Binary64 Examples ExactVocabulary.
Local Open Scope js_scope.




(** The scene of three shapes with the select tool and nothing selected,
    and the same while the middle shape is dragged. *)
Definition select_tool : State float :=
  setShapes scene3 (setTool ToolSelect initialState).

Definition dragging_b : State float := setIsDragging true selected_b.


(** Three elements of a document: a rect, a path with one point, and a
    polyline. *)
Definition three_elements : list (string * Element) :=
  [("i1", mkElement "rect" [("x", "10"); ("y", "20"); ("width", "30"); ("height", "40")]);
   ("i2", mkElement "path" [("d", "M3,4 Z")]);
   ("i3", mkElement "polyline" [("points", "0,0 10,10 20")])]%string.

(** A pen path of three points in exact arithmetic. *)
Definition zigzag_R : list (Point R) :=
  [mkPoint 0%R 0%R; mkPoint 20%R 40%R; mkPoint 60%R 0%R].

(** Panning from the pan (40, 20) after a press at (100, 100). *)
Definition panning_view : State R :=
  setPanStart (mkPoint 60%R 80%R) (setIsPanning true zoomed_view).

Definition mouse_R (x y : R) : MouseEvent R := mkMouseEvent x y 0 false false.

(** A rect at (100, 100), selected and being dragged after a click at
    (110, 105). *)
Definition dragging_rect_R : State R :=
  setDragOffset (mkPoint (110 - 100)%R (105 - 100)%R)
    (setIsDragging true
       (setSelectedShapeIds {[ "a"%string ]}
          (setShapes [Rect "a" 100%R 100%R 40%R 40%R]
             (setTool ToolSelect initialState)))).

(** In the middle of a rect gesture that started at (20, 40). *)
Definition drawing_rect_R : State R :=
  setStart (mkPoint 20%R 40%R) (setIsDrawing true (setTool ToolRect initialState)).

End MoreExamples.

(** * Properties *)

(** ** The viewport and the grid, in exact arithmetic *)

Module ExactProps.
Import Exact.
Local Open Scope R_scope.

Lemma lit_int (n : Z) : int (num := R) n = IZR n.
Proof. unfold int; cbn. lra. Qed.

Lemma GRID_SIZE_value : GRID_SIZE (num := R) = 20.
Proof. unfold GRID_SIZE. apply lit_int. Qed.

Lemma Rround_IZR (k : Z) : Rround (IZR k) = IZR k.
Proof.
  unfold Rround. f_equal. apply Zfloor_eq. lra.
Qed.

Lemma Rround_near (x : R) : x - / 2 < Rround x <= x + / 2.
Proof.
  unfold Rround. pose proof (Zfloor_bound (x + / 2)). lra.
Qed.

(** [snap x] is [20 k] for the integer [k = round (x / 20)]. *)
Lemma snap_multiple (x : R) : snap x = 20 * IZR (Zfloor (x / 20 + / 2)).
Proof.
  unfold snap. rewrite GRID_SIZE_value. cbn. unfold Rround. lra.
Qed.

(** Below [10^21], [toFixed2] gives a number of hundredths within half a
    hundredth of its argument. *)
Lemma RtoFixed2_hundredths (y : R) :
  0 <= y < 10 ^ 21 ->
  RtoFixed2 y = IZR (Zfloor (100 * y + / 2)) / 100 /\
  y - / 200 < RtoFixed2 y <= y + / 200.
Proof.
  intros [Hy0 Hy1]. unfold RtoFixed2.
  rewrite (Rabs_pos_eq y Hy0).
  destruct (decide (10 ^ 21 <= y)) as [Hbig|_]; [lra|].
  destruct (decide (y < 0)) as [Hneg|_]; [lra|].
  split; [reflexivity|].
  pose proof (Zfloor_bound (100 * y + / 2)). lra.
Qed.




Lemma pow_10_21_big : 100 < 10 ^ 21.
Proof.
  replace (10 ^ 21) with (100 * 10 ^ 19) by (simpl; lra).
  assert (1 < 10 ^ 19) by (apply Rlt_pow_R1; [lra | lia]). lra.
Qed.

(** The zoom that a wheel tick picks, written out. *)
Lemma wheelZoom_value (z dY : R) :
  wheelZoom z dY =
  Rmin (Rmax (RtoFixed2 (z * (if bool_decide (0 < dY) then 9 / 10 else 11 / 10))) (1 / 10)) 5.
Proof.
  unfold wheelZoom. cbn.
  replace (0 / 1) with 0 by lra. replace (10 * 1) with 10 by lra.
  replace (5 / 1) with 5 by lra. reflexivity.
Qed.





Lemma worldToScreen_value (z : R) (p w : Point R) :
  worldToScreen z p w = mkPoint (pt_x w * z + pt_x p) (pt_y w * z + pt_y p).
Proof.
  unfold worldToScreen, applyTransform. cbn. f_equal; lra.
Qed.

(** C3: for every zoom [z > 0], pan [p] and screen point [s], mapping [s]
    to world coordinates by [(s - p) / z] and back by [world * z + p]
    returns [s]; in exact arithmetic the two maps are inverse, so what a
    binary64 evaluation adds is rounding error only.  In particular the
    world point that [pos] reports for a mouse event is drawn at the
    event's canvas position. *)
Theorem viewport_round_trip (z : R) (p s : Point R) :
  0 < z ->
  screenToWorld z p s = mkPoint ((pt_x s - pt_x p) / z) ((pt_y s - pt_y p) / z) /\
  worldToScreen z p (screenToWorld z p s) = s /\
  (forall (st : State R) (canvas : Canvas R) (e : MouseEvent R),
     zoom st = z -> pan st = p ->
     worldToScreen z p (pos st canvas e) =
     canvasPoint canvas (clientX e) (clientY e)).
Proof.
  intros Hz.
  assert (Hrt : forall q, worldToScreen z p (screenToWorld z p q) = q).
  { intros [qx qy]. rewrite worldToScreen_value. cbn. f_equal; field; lra. }
  split; [reflexivity|]. split; [apply Hrt|].
  intros st canvas e <- <-. apply Hrt.
Qed.

Lemma viewport_round_trip_witness :
  worldToScreen 2 (mkPoint 30 (-10)) (screenToWorld 2 (mkPoint 30 (-10)) (mkPoint 7 5))
  = mkPoint 7 5.
Proof.
  apply (viewport_round_trip 2 (mkPoint 30 (-10)) (mkPoint 7 5)). lra.
Defined.





End ExactProps.

(** ** Properties that hold for every number instance *)

Section ShapeProps.
Context {num : Type} `{Arith num}.
Local Open Scope js_scope.

Lemma moveShapeBy_id (s : Shape num) (dx dy : num) :
  shape_id (moveShapeBy s dx dy) = shape_id s.
Proof. destruct s; reflexivity. Qed.

Lemma moveShapeBy_xCoords (s : Shape num) (dx dy : num) :
  xCoords (moveShapeBy s dx dy) = map (fun c => c + dx) (xCoords s).
Proof.
  destruct s; simpl; try reflexivity.
  rewrite !map_map. reflexivity.
Qed.

Lemma moveShapeBy_yCoords (s : Shape num) (dx dy : num) :
  yCoords (moveShapeBy s dx dy) = map (fun c => c + dy) (yCoords s).
Proof.
  destruct s; simpl; try reflexivity.
  rewrite !map_map. reflexivity.
Qed.

Lemma moveShapeBy_extents (s : Shape num) (dx dy : num) :
  extents (moveShapeBy s dx dy) = extents s.
Proof. destruct s; reflexivity. Qed.

Lemma move_points_back (points : list (Point num)) (dx dy : num) :
  Forall (fun c => (c + dx) + (- dx) = c) (map pt_x points) ->
  Forall (fun c => (c + dy) + (- dy) = c) (map pt_y points) ->
  map (fun p => mkPoint (pt_x p + (- dx)) (pt_y p + (- dy)))
      (map (fun p => mkPoint (pt_x p + dx) (pt_y p + dy)) points) = points.
Proof.
  induction points as [|[px py] points IH]; intros Hx Hy; [reflexivity|].
  simpl in *. inversion Hx as [|? ? Hx1 Hx2]; inversion Hy as [|? ? Hy1 Hy2]; subst.
  rewrite Hx1, Hy1. f_equal. apply IH; assumption.
Qed.

Lemma moveShapeBy_back (s : Shape num) (dx dy : num) :
  Forall (fun c => (c + dx) + (- dx) = c) (xCoords s) ->
  Forall (fun c => (c + dy) + (- dy) = c) (yCoords s) ->
  moveShapeBy (moveShapeBy s dx dy) (- dx) (- dy) = s.
Proof.
  intros Hx Hy.
  destruct s as [id points|id x y w h|id cx cy r|id x1 y1 x2 y2]; simpl in *.
  - f_equal. apply move_points_back; assumption.
  - inversion Hx; inversion Hy; subst. congruence.
  - inversion Hx; inversion Hy; subst. congruence.
  - inversion Hx as [|? ? Hx1 Hx']; inversion Hx' as [|? ? Hx2 _];
    inversion Hy as [|? ? Hy1 Hy']; inversion Hy' as [|? ? Hy2 _]; subst.
    congruence.
Qed.

(** C4, as amended: translating a shape by [(dx, dy)] with [moveShapeBy]
    and the result by [(-dx, -dy)] keeps the id, the number of points, a
    rect's [w] and [h] and a circle's radius, and maps each stored
    coordinate [c] to [(c + d) + (-d)]; so the shape is reconstructed
    exactly whenever these additions cancel on its coordinates, as they do
    in exact arithmetic. *)
Theorem moveShapeBy_there_and_back (s : Shape num) (dx dy : num) :
  (Forall (fun c => (c + dx) + (- dx) = c) (xCoords s) ->
   Forall (fun c => (c + dy) + (- dy) = c) (yCoords s) ->
   moveShapeBy (moveShapeBy s dx dy) (- dx) (- dy) = s) /\
  xCoords (moveShapeBy (moveShapeBy s dx dy) (- dx) (- dy)) =
    map (fun c => (c + dx) + (- dx)) (xCoords s) /\
  yCoords (moveShapeBy (moveShapeBy s dx dy) (- dx) (- dy)) =
    map (fun c => (c + dy) + (- dy)) (yCoords s) /\
  extents (moveShapeBy s dx dy) = extents s /\
  extents (moveShapeBy (moveShapeBy s dx dy) (- dx) (- dy)) = extents s /\
  shape_id (moveShapeBy (moveShapeBy s dx dy) (- dx) (- dy)) = shape_id s.
Proof.
  split; [apply moveShapeBy_back|].
  rewrite !moveShapeBy_xCoords, !moveShapeBy_yCoords, !moveShapeBy_extents,
    !moveShapeBy_id, !map_map.
  repeat split.
Qed.

(** *** Deleting the selection *)

Lemma handleKeyDown_other_key (key : string) (st : State num) :
  key ≠ "Delete"%string -> handleKeyDown key st = st.
Proof.
  intros Hk. unfold handleKeyDown.
  destruct (String.eqb_spec key "Delete"); [contradiction|reflexivity].
Qed.

(** C5: with a non-empty selection the Delete key leaves in the scene
    exactly the shapes whose id is not selected, each unchanged and in
    their former order, and empties the selection, touching nothing else
    of the state; with an empty selection the state is unchanged. *)
Theorem handleKeyDown_delete (st : State num) :
  let st' := handleKeyDown "Delete" st in
  (selectedShapeIds st ≠ ∅ ->
     shapes st' = filter (fun s => shape_id s ∉ selectedShapeIds st) (shapes st) /\
     (forall s, s ∈ shapes st' <-> s ∈ shapes st /\ shape_id s ∉ selectedShapeIds st) /\
     sublist (shapes st') (shapes st) /\
     selectedShapeIds st' = ∅ /\
     st' = setSelectedShapeIds ∅ (setShapes (shapes st') st)) /\
  (selectedShapeIds st = ∅ -> st' = st).
Proof.
  intros st'. subst st'. unfold handleKeyDown. simpl.
  split.
  - intros Hne.
    assert (Hsz : (0 <? size (selectedShapeIds st))%nat = true).
    { apply Nat.ltb_lt.
      assert (size (selectedShapeIds st) ≠ 0%nat); [|lia].
      intros Hz. apply Hne. apply leibniz_equiv. apply size_empty_iff. exact Hz. }
    rewrite Hsz. simpl.
    split; [reflexivity|]. split; [|split; [|split; reflexivity]].
    + intros s. rewrite list_elem_of_filter. tauto.
    + apply sublist_filter.
  - intros ->. rewrite size_empty. reflexivity.
Qed.

End ShapeProps.

Module ExactShapeProps.
Import Exact.

(** In exact arithmetic the additions always cancel. *)
Lemma moveShapeBy_back_exact (s : Shape R) (dx dy : R) :
  moveShapeBy (moveShapeBy s dx dy) (neg dx) (neg dy) = s.
Proof.
  apply moveShapeBy_back; apply Forall_forall; intros c _; cbn; lra.
Qed.

End ExactShapeProps.

Section InteractionProps.
Context {num : Type} `{Arith num} `{MathLib num}.
Local Open Scope js_scope.

(** *** The pen hit test *)

Lemma pen_loop_reads_in_bounds (point : Point num) (points : list (Point num))
    (th : num) (n : nat) (i : Z) :
  (0 <= i)%Z ->
  (n ≠ O -> (i + Z.of_nat n <= Z.of_nat (length points) - 1)%Z) ->
  Forall (fun k => (0 <= k < Z.of_nat (length points))%Z)
         (fst (pen_loop point points th n i)) /\
  snd (pen_loop point points th n i) ≠ None.
Proof.
  revert i. induction n as [|n IH]; intros i Hi Hn; simpl.
  - split; [constructor|discriminate].
  - specialize (Hn ltac:(lia)).
    assert (Hlt : (Z.to_nat i < length points)%nat) by lia.
    assert (Hlt' : (Z.to_nat (i + 1) < length points)%nat) by lia.
    unfold point_at.
    destruct (Z.ltb_spec i 0); [lia|].
    destruct (Z.ltb_spec (i + 1) 0); [lia|].
    destruct (lookup_lt_is_Some_2 _ _ Hlt) as [p1 ->].
    destruct (lookup_lt_is_Some_2 _ _ Hlt') as [p2 ->].
    destruct (distanceToSegment point p1 p2 <? th).
    + simpl. split; [|discriminate].
      repeat constructor; lia.
    + specialize (IH (i + 1)%Z ltac:(lia) ltac:(lia)).
      destruct (pen_loop point points th n (i + 1)) as [reads res]. simpl in *.
      destruct IH as [IH1 IH2]. split; [|exact IH2].
      repeat (constructor; [lia|]). exact IH1.
Qed.

(** Every index the pen case reads lies within the list, and the test
    returns a boolean, whatever the list. *)
Lemma pen_hit_reads_in_bounds (zoom : num) (point : Point num) (points : list (Point num)) :
  Forall (fun k => (0 <= k < Z.of_nat (length points))%Z)
         (fst (pen_hit zoom point points)) /\
  snd (pen_hit zoom point points) ≠ None.
Proof.
  unfold pen_hit. apply pen_loop_reads_in_bounds; lia.
Qed.

(** C10: for a pen shape with fewer than two points (none or one) and any
    query point, [isPointInShape] returns [false], and its segment loop
    reads no index at all, so none outside the list. *)
Theorem isPointInShape_short_pen (zoom : num) (point : Point num) (id : string)
    (points : list (Point num)) :
  (length points < 2)%nat ->
  isPointInShape zoom point (Pen id points) = Some false /\
  fst (pen_hit zoom point points) = [].
Proof.
  intros Hlen. unfold isPointInShape, pen_hit.
  assert (Hn : Z.to_nat (Z.of_nat (length points) - 1) = O) by lia.
  rewrite Hn. simpl. split; reflexivity.
Qed.

(** *** Committing a gesture *)

Lemma app_one_neq {A : Type} (l : list A) (x : A) : l ++ [x] ≠ l.
Proof.
  intros Heq. apply (f_equal length) in Heq. rewrite length_app in Heq.
  simpl in Heq. lia.
Qed.

(** C7: on the pointer-up that ends a draw gesture (the canvas has its 2D
    context), with the pen tool a new Pen shape is appended to the scene
    if and only if the buffer holds at least two points, and with fewer
    the scene is unchanged; with the rect, circle or line tool a shape is
    appended whatever its size, built from the start point and the snapped
    final point. *)
Theorem endDraw_commit (canvas : Canvas num) (id : string) (e : MouseEvent num)
    (st : State num) :
  isPanning st = false -> isDragging st = false -> isDrawing st = true ->
  hasContext canvas = true ->
  let st' := endDraw canvas id e st in
  let x0 := pt_x (start st) in
  let y0 := pt_y (start st) in
  let currX := snap (pt_x (pos st canvas e)) in
  let currY := snap (pt_y (pos st canvas e)) in
  isDrawing st' = false /\
  (tool st = ToolPen ->
     ((2 <= length (currentPenPoints st))%nat ->
        shapes st' = shapes st ++ [Pen id (currentPenPoints st)]) /\
     ((length (currentPenPoints st) < 2)%nat -> shapes st' = shapes st) /\
     (shapes st' ≠ shapes st <-> (2 <= length (currentPenPoints st))%nat)) /\
  (tool st = ToolRect ->
     shapes st' = shapes st ++ [Rect id x0 y0 (currX - x0) (currY - y0)]) /\
  (tool st = ToolCircle ->
     shapes st' = shapes st ++ [Circle id x0 y0 (Math_hypot (currX - x0) (currY - y0))]) /\
  (tool st = ToolLine ->
     shapes st' = shapes st ++ [Line id x0 y0 currX currY]).
Proof.
  intros Hpan Hdrag Hdraw Hctx st' x0 y0 currX currY.
  subst st'. unfold endDraw. rewrite Hpan, Hdrag, Hdraw, Hctx. simpl.
  split; [|split; [|split; [|split]]].
  - destruct (tool st); simpl;
      repeat match goal with |- context [(1 <? ?n)%nat] => destruct (1 <? n)%nat end;
      reflexivity.
  - intros Ht. rewrite Ht. simpl.
    destruct (Nat.ltb_spec 1 (length (currentPenPoints st))) as [Hlen|Hlen]; simpl.
    + split; [reflexivity|]. split; [lia|]. split; [lia|].
      intros _. apply app_one_neq.
    + split; [lia|]. split; [reflexivity|]. split; [congruence|lia].
  - intros Ht. rewrite Ht. reflexivity.
  - intros Ht. rewrite Ht. reflexivity.
  - intros Ht. rewrite Ht. reflexivity.
Qed.

Context `{NonFinite num}.

(** Pressing the primary button with the pen tool and releasing it at once
    records a single point, and the release commits nothing. *)
Lemma pen_click_commits_nothing (canvas : Canvas num) (id : string)
    (down up : MouseEvent num) (st : State num) :
  tool st = ToolPen -> isPanning st = false -> isDragging st = false ->
  button down = 0%Z -> ctrlKey down = false ->
  exists st1,
    startDraw canvas down st = Some st1 /\
    length (currentPenPoints st1) = 1%nat /\
    shapes (endDraw canvas id up st1) = shapes st.
Proof.
  intros Ht Hpan Hdrag Hb Hc. unfold startDraw.
  rewrite Hb, Hc, Ht. simpl.
  eexists. split; [reflexivity|]. split; [reflexivity|].
  unfold endDraw. simpl. rewrite Hpan, Hdrag, Ht. simpl.
  destruct (hasContext canvas); reflexivity.
Qed.

End InteractionProps.

(** ** The importer's path reader *)

Section PathProps.
Context {num : Type} `{Arith num} `{NonFinite num}.
Local Open Scope js_scope.

Lemma path_step_other (values : list string) (i : nat) (current : Point num)
    (points : list (Point num)) (cmd : ascii) :
  is_move_or_line cmd = false ->
  path_step values (i, current, points) cmd = (S i, current, points).
Proof.
  unfold is_move_or_line, path_step. intros Hc.
  destruct (cmd =? "M")%char, (cmd =? "m")%char, (cmd =? "L")%char, (cmd =? "l")%char;
    try discriminate. reflexivity.
Qed.

Lemma path_step_length (values : list string) (st : path_state) (cmd : ascii) :
  (length (snd (path_step values st cmd)) <=
   length (snd st) + (if is_move_or_line cmd then 1 else 0))%nat.
Proof.
  destruct st as [[i current] points].
  destruct (is_move_or_line cmd) eqn:Hc.
  - unfold path_step.
    destruct ((cmd =? "M")%char || (cmd =? "m")%char);
      [|destruct ((cmd =? "L")%char || (cmd =? "l")%char)];
      try (destruct (path_nums values i) as [|n0 [|n1 rest]]);
      simpl; rewrite ?length_app; simpl; lia.
  - rewrite path_step_other by exact Hc. simpl. lia.
Qed.

Lemma path_fold_length (values : list string) (commands : list ascii) (st : path_state) :
  (length (snd (fold_left (path_step values) commands st)) <=
   length (snd st) + length (filter (fun c => is_move_or_line c = true) commands))%nat.
Proof.
  revert st. induction commands as [|cmd commands IH]; intros st; simpl; [lia|].
  specialize (IH (path_step values st cmd)).
  pose proof (path_step_length values st cmd) as Hs.
  rewrite filter_cons.
  destruct (decide (is_move_or_line cmd = true)) as [Hc|Hc].
  - rewrite Hc in Hs. simpl. lia.
  - apply not_true_is_false in Hc. rewrite Hc in Hs. lia.
Qed.

(** A path yields at most one point for each of its [M], [m], [L] and [l]
    commands. *)
Lemma parsePath_length (d : string) :
  (length (parsePath d) <=
   length (filter (fun c => is_move_or_line c = true)
                  (Str.match_chars Str.is_command d)))%nat.
Proof.
  unfold parsePath. apply (path_fold_length _ _ (O, mkPoint (int 0) (int 0), [])).
Qed.

Lemma parseSVGElement_short_path (id d : string) :
  (length (parsePath d) < 2)%nat ->
  parseSVGElement id (mkElement "path" [("d", d)]) = None.
Proof.
  intros Hlen. unfold parseSVGElement. simpl.
  destruct (Str.is_empty d); [reflexivity|].
  destruct (Nat.ltb_spec (length (parsePath d)) 2); [reflexivity|lia].
Qed.

End PathProps.

(** ** Evaluation on binary64 *)

Module Binary64Props.
Import Binary64 Examples.
Local Open Scope js_scope.

(** The path data ["M0,0 L10,10 L20,0 Z"] is read as the three points
    (0,0), (10,10), (20,0), and a path element with it becomes a Pen shape
    of these points: the closing [Z] adds no point.  In general a command
    other than [M], [m], [L], [l] leaves the points and the current point
    as they are, [M] and [L] take their two numbers as a position and [m]
    and [l] as an offset from the current point, a path has at most one
    point per such command, and a path element whose data give fewer than
    two points gives no shape. *)
Lemma parsePath_moves_and_lines (id d : string) (values : list string) (i : nat)
    (current : Point float) (points : list (Point float)) (cmd : ascii)
    (n0 n1 : float) (rest : list float) :
  parsePath "M0,0 L10,10 L20,0 Z" =
    [mkPoint (int 0) (int 0); mkPoint (int 10) (int 10); mkPoint (int 20) (int 0)] /\
  parseSVGElement id (mkElement "path" [("d", "M0,0 L10,10 L20,0 Z")]) =
    Some (Pen id [mkPoint (int 0) (int 0); mkPoint (int 10) (int 10);
                  mkPoint (int 20) (int 0)]) /\
  (is_move_or_line cmd = false ->
     path_step values (i, current, points) cmd = (S i, current, points)) /\
  (path_nums values i = n0 :: n1 :: rest ->
     path_step values (i, current, points) "M" =
       (S i, mkPoint n0 n1, points ++ [mkPoint n0 n1]) /\
     path_step values (i, current, points) "L" =
       (S i, mkPoint n0 n1, points ++ [mkPoint n0 n1]) /\
     path_step values (i, current, points) "m" =
       (S i, mkPoint (pt_x current + n0) (pt_y current + n1),
        points ++ [mkPoint (pt_x current + n0) (pt_y current + n1)]) /\
     path_step values (i, current, points) "l" =
       (S i, mkPoint (pt_x current + n0) (pt_y current + n1),
        points ++ [mkPoint (pt_x current + n0) (pt_y current + n1)])) /\
  (length (parsePath (num := float) d) <=
     length (filter (fun c => is_move_or_line c = true)
                    (Str.match_chars Str.is_command d)))%nat /\
  ((length (parsePath (num := float) d) < 2)%nat ->
     parseSVGElement (num := float) id (mkElement "path" [("d", d)]) = None).
Proof.
  split; [vm_compute; reflexivity|].
  split.
  { unfold parseSVGElement. simpl.
    replace (parsePath "M0,0 L10,10 L20,0 Z") with
      [mkPoint (int (num := float) 0) (int 0); mkPoint (int 10) (int 10);
       mkPoint (int 20) (int 0)] by (vm_compute; reflexivity).
    reflexivity. }
  split; [apply path_step_other|].
  split.
  { intros Hn. unfold path_step. rewrite Hn. simpl. repeat split; reflexivity. }
  split; [apply parsePath_length|apply parseSVGElement_short_path].
Qed.

(** C6 on the code: the claim's own example is read as it says, three
    points and none for the closing [Z]; but a [Z] that is followed by
    further commands is not ignored.  [parsePath] drops the empty argument
    group of the [Z] from [values] and still counts the [Z] in the index,
    so every later command reads the numbers of the command after it: in
    ["M0,0 L10,10 Z M5,5 L6,6"] the second [M] moves to (6,6) and the last
    [L] finds nothing, where the same path without the [Z] gives four
    points. *)
Theorem parsePath_close_shifts_arguments :
  parsePath "M0,0 L10,10 L20,0 Z" =
    [mkPoint (int 0) (int 0); mkPoint (int 10) (int 10); mkPoint (int 20) (int 0)] /\
  Str.match_chars Str.is_command two_subpaths = ["M"; "L"; "Z"; "M"; "L"]%char /\
  path_values two_subpaths = ["0,0 "; "10,10 "; "5,5 "; "6,6"]%string /\
  parsePath two_subpaths =
    [mkPoint (int 0) (int 0); mkPoint (int 10) (int 10); mkPoint (int 6) (int 6)] /\
  parsePath two_subpaths_open =
    [mkPoint (int 0) (int 0); mkPoint (int 10) (int 10); mkPoint (int 5) (int 5);
     mkPoint (int 6) (int 6)].
Proof.
  repeat split; vm_compute; reflexivity.
Qed.

(** Three zoom-in steps from 1 and a wheel tick, as the engine computes
    them: each zoom is the binary64 number nearest to a number of
    hundredths. *)
Lemma zoom_steps_binary64 :
  zoom (handleZoomIn initialState) = lit 12 1 /\
  zoom (handleZoomIn (handleZoomIn initialState)) = lit 144 2 /\
  zoom (handleZoomIn (handleZoomIn (handleZoomIn initialState))) = lit 173 2 /\
  zoom (handleZoomOut initialState) = lit 83 2 /\
  zoom (handleWheel (Some canvas0) (mkWheelEvent (int 200) (int 100) (int (-120)))
                    initialState) = lit 11 1.
Proof.
  repeat split; vm_compute; reflexivity.
Qed.


(** C4 fails on binary64: moving the rect at [x = 60] by [dx = 9.9] and
    back by [-9.9] leaves it at [x = 60.000000000000007]. *)
Lemma moveShapeBy_back_drifts :
  moveShapeBy (moveShapeBy grid_rect (lit 99 1) (int 0)) (- lit 99 1) (- int 0)
    ≠ grid_rect /\
  moveShapeBy (moveShapeBy grid_rect (lit 99 1) (int 0)) (- lit 99 1) (- int 0)
    = Rect "r" (lit 60000000000000007 15) (int 40) (int 20) (int 20) /\
  (lit 60000000000000007 15 === int (num := float) 60) = false.
Proof.
  split; [|split].
  - vm_compute. intros Heq. inversion Heq.
  - vm_compute. reflexivity.
  - vm_compute. reflexivity.
Qed.

Lemma moveShapeBy_there_and_back_witness :
  moveShapeBy (moveShapeBy zigzag (lit 75 1) (lit (-225) 2))
              (- lit 75 1) (- lit (-225) 2) = zigzag.
Proof.
  apply (moveShapeBy_there_and_back zigzag (lit 75 1) (lit (-225) 2));
    repeat constructor; vm_compute; reflexivity.
Defined.

Lemma handleKeyDown_delete_witness :
  shapes (handleKeyDown "Delete" selected_b) =
    [Rect "a" (int 0) (int 0) (int 40) (int 40);
     Line "c" (int 0) (int 0) (int 20) (int 60)] /\
  selectedShapeIds (handleKeyDown "Delete" selected_b) = ∅.
Proof.
  assert (Hne : selectedShapeIds selected_b ≠ ∅).
  { intros Hempty. apply (f_equal size) in Hempty. vm_compute in Hempty. discriminate. }
  destruct (handleKeyDown_delete selected_b) as [Hdel _].
  destruct (Hdel Hne) as [Hshapes [_ [_ [Hsel _]]]].
  split; [rewrite Hshapes; vm_compute; reflexivity|exact Hsel].
Defined.

Lemma isPointInShape_short_pen_witness :
  isPointInShape (int 1) (mkPoint (int 5) (int 5)) (Pen "p" [mkPoint (int 5) (int 5)])
    = Some false.
Proof.
  apply (isPointInShape_short_pen (int 1) (mkPoint (int 5) (int 5)) "p"
           [mkPoint (int 5) (int 5)]).
  simpl. lia.
Defined.

Lemma endDraw_commit_witness :
  shapes (endDraw canvas0 "id1" (mouseAt 3 4) drawing_rect) =
    [Rect "id1" (int 0) (int 0) (int 0) (int 0)].
Proof.
  destruct (endDraw_commit canvas0 "id1" (mouseAt 3 4) drawing_rect
              eq_refl eq_refl eq_refl eq_refl) as [_ [_ [Hrect _]]].
  rewrite (Hrect eq_refl). vm_compute. reflexivity.
Defined.

End Binary64Props.

(** * Further properties *)

(** ** The hit test and the bounds *)

Section GeometryProps.
Context {num : Type} `{Arith num} `{MathLib num}.
Local Open Scope js_scope.

Lemma point_at_nat (points : list (Point num)) (i : nat) :
  point_at points (Z.of_nat i) = points !! i.
Proof.
  unfold point_at. destruct (Z.ltb_spec (Z.of_nat i) 0); [lia|].
  rewrite Nat2Z.id. reflexivity.
Qed.

Lemma pen_loop_hit_iff (point : Point num) (points : list (Point num)) (th : num)
    (n : nat) (i : nat) :
  n = Z.to_nat (Z.of_nat (length points) - 1 - Z.of_nat i) ->
  snd (pen_loop point points th n (Z.of_nat i)) = Some true <->
  exists k p1 p2, (i <= k)%nat /\ points !! k = Some p1 /\ points !! S k = Some p2 /\
                  (distanceToSegment point p1 p2 <? th) = true.
Proof.
  revert i. induction n as [|n IH]; intros i Hn; simpl.
  - split; [discriminate|].
    intros (k & p1 & p2 & Hk & H1 & H2 & _).
    apply lookup_lt_Some in H2. lia.
  - replace (Z.of_nat i + 1)%Z with (Z.of_nat (S i)) by lia.
    rewrite !point_at_nat.
    assert (Hlt : (S i < length points)%nat) by lia.
    destruct (lookup_lt_is_Some_2 points i ltac:(lia)) as [p1 Hp1].
    destruct (lookup_lt_is_Some_2 points (S i) Hlt) as [p2 Hp2].
    rewrite Hp1, Hp2.
    destruct (distanceToSegment point p1 p2 <? th) eqn:Hd.
    + simpl. split; [|reflexivity]. intros _.
      exists i, p1, p2. repeat split; [lia|assumption..].
    + specialize (IH (S i) ltac:(lia)).
      destruct (pen_loop point points th n (Z.of_nat (S i))) as [reads res].
      simpl in *. rewrite IH. split.
      * intros (k & q1 & q2 & Hk & Hq). exists k, q1, q2. split; [lia|exact Hq].
      * intros (k & q1 & q2 & Hk & Hq1 & Hq2 & Hq).
        destruct (decide (k = i)) as [->|Hne].
        -- rewrite Hp1 in Hq1. rewrite Hp2 in Hq2.
           inversion Hq1; inversion Hq2; subst. congruence.
        -- exists k, q1, q2. repeat split; [lia|assumption..].
Qed.

(** X3: the pen case of the hit test is true exactly when some segment between
    two consecutive points is within the threshold [10 / zoom] of the
    point. *)
Theorem pen_hit_iff_some_segment (zoom : num) (point : Point num) (id : string)
    (points : list (Point num)) :
  isPointInShape zoom point (Pen id points) = Some true <->
  exists i, segment_hit zoom point points i.
Proof.
  unfold isPointInShape, pen_hit, segment_hit.
  rewrite (pen_loop_hit_iff point points _ _ O) by lia.
  split.
  - intros (k & p1 & p2 & _ & Hq). exists k, p1, p2. exact Hq.
  - intros (k & p1 & p2 & Hq). exists k, p1, p2. split; [lia|exact Hq].
Qed.

Lemma isPointInShape_some (zoom : num) (point : Point num) (shape : Shape num) :
  exists b, isPointInShape zoom point shape = Some b.
Proof.
  destruct shape as [id points| | |]; simpl; try (eexists; reflexivity).
  destruct (pen_hit_reads_in_bounds zoom point points) as [_ Hres].
  destruct (snd (pen_hit zoom point points)) as [b|]; [exists b; reflexivity|congruence].
Qed.

(** X2: the hit test never raises: for every shape it returns a boolean, and
    on a pen shape every index that it reads lies within the list of
    points. *)
Theorem isPointInShape_never_raises (zoom : num) (point : Point num) (shape : Shape num)
    (points : list (Point num)) :
  (exists b, isPointInShape zoom point shape = Some b) /\
  Forall (fun k => (0 <= k < Z.of_nat (length points))%Z)
         (fst (pen_hit zoom point points)).
Proof.
  split; [apply isPointInShape_some|apply pen_hit_reads_in_bounds].
Qed.

Context `{NonFinite num}.

Lemma getShapeBounds_none (shape : Shape num) :
  getShapeBounds shape = None -> exists id, shape = Pen id [].
Proof.
  destruct shape as [id points| | |]; simpl; try discriminate.
  destruct points as [|p points]; simpl; [intros _; exists id; reflexivity|].
  destruct (fold_left _ points _) as [[[minX minY] maxX] maxY]. discriminate.
Qed.

(** X1: [getShapeBounds] returns no box for a pen without points and for no
    other shape. *)
Theorem getShapeBounds_none_iff (shape : Shape num) :
  getShapeBounds shape = None <-> exists id, shape = Pen id [].
Proof.
  split; [apply getShapeBounds_none|]. intros [id ->]. reflexivity.
Qed.

End GeometryProps.

(** ** The handlers and the scene *)

Section HandlerProps.
Context {num : Type} `{Arith num} `{MathLib num} `{NonFinite num}.
Local Open Scope js_scope.

(** *** What [findLast] finds *)

Lemma findLast_spec (pred : Shape num -> option bool) (l : list (Shape num)) :
  (forall s, exists b, pred s = Some b) ->
  (exists before s after,
     l = before ++ s :: after /\ pred s = Some true /\
     Forall (fun t => pred t = Some false) after /\
     findLast pred l = Some (Some s)) \/
  (Forall (fun t => pred t = Some false) l /\ findLast pred l = Some None).
Proof.
  intros Htot. induction l as [|s l IH]; simpl.
  - right. split; [constructor|reflexivity].
  - destruct IH as [(before & t & after & -> & Ht & Hafter & ->)|[Hall ->]].
    + left. exists (s :: before), t, after. repeat split; assumption.
    + destruct (Htot s) as [[|] Hs]; rewrite Hs; simpl.
      * left. exists [], s, l. repeat split; assumption.
      * right. split; [constructor; assumption|reflexivity].
Qed.

(** *** Which cells a handler touches *)

Lemma draw_frame (canvas : Canvas num) (e : MouseEvent num) (st : State num) :
  isDrawing (draw canvas e st) = isDrawing st /\
  isPanning (draw canvas e st) = isPanning st /\
  isDragging (draw canvas e st) = isDragging st /\
  tool (draw canvas e st) = tool st /\
  zoom (draw canvas e st) = zoom st /\
  start (draw canvas e st) = start st /\
  selectedShapeIds (draw canvas e st) = selectedShapeIds st /\
  map shape_id (shapes (draw canvas e st)) = map shape_id (shapes st).
Proof.
  unfold draw.
  destruct (isPanning st) eqn:Hp; [simpl; rewrite Hp; repeat split; reflexivity|].
  destruct (isDragging st && bool_decide (tool st = ToolSelect)) eqn:Hd.
  { simpl. rewrite Hp. repeat split; try reflexivity.
    rewrite map_map. apply map_ext. intros s.
    destruct (decide (shape_id s ∈ selectedShapeIds st));
      [apply moveShapeBy_id|reflexivity]. }
  destruct (isDrawing st) eqn:Hdr; simpl; [|rewrite Hp, Hdr; repeat split; reflexivity].
  destruct (hasContext canvas); simpl; [|rewrite Hp, Hdr; repeat split; reflexivity].
  destruct (decide (tool st = ToolPen)); simpl; rewrite ?Hp, ?Hdr; repeat split; reflexivity.
Qed.

Lemma startDraw_effect (canvas : Canvas num) (e : MouseEvent num) (st : State num) :
  exists st1,
    startDraw canvas e st = Some st1 /\
    shapes st1 = shapes st /\ zoom st1 = zoom st /\ pan st1 = pan st /\
    tool st1 = tool st /\
    (forall i : string, i ∈ selectedShapeIds st1 ->
       i ∈ selectedShapeIds st \/ i ∈ map shape_id (shapes st)) /\
    (idle st -> single_mode st1).
Proof.
  unfold startDraw, idle, single_mode.
  destruct ((button e =? 1)%Z || ((button e =? 0)%Z && ctrlKey e)).
  { eexists. split; [reflexivity|]. simpl. repeat split; try reflexivity.
    - intros i Hi. left. exact Hi.
    - intros (-> & _ & ->). simpl. lia. }
  destruct (decide (tool st = ToolSelect)) as [Hsel|Hsel].
  - destruct (findLast_spec (isPointInShape (zoom st) (pos st canvas e)) (shapes st)
                (isPointInShape_some _ _))
      as [(before & s & after & Hl & Hs & Hafter & ->)|[Hall ->]]; simpl.
    + assert (Hin : shape_id s ∈ map shape_id (shapes st)).
      { rewrite Hl, map_app. apply elem_of_app. right. simpl. apply elem_of_cons. left. reflexivity. }
      destruct (shiftKey e).
      * eexists. split; [reflexivity|]. simpl. repeat split; try reflexivity.
        -- intros i Hi.
           destruct (decide (shape_id s ∈ selectedShapeIds st)).
           ++ left. apply elem_of_difference in Hi as [Hi _]. exact Hi.
           ++ apply elem_of_union in Hi as [Hi|Hi]; [left; exact Hi|].
              apply elem_of_singleton in Hi. subst. right. exact Hin.
        -- intros (-> & -> & ->). simpl. lia.
      * destruct (getShapeBounds s); eexists; (split; [reflexivity|]); simpl;
          (repeat split; try reflexivity);
          try (intros i Hi; apply elem_of_singleton in Hi; subst; right; exact Hin);
          intros (-> & -> & _); simpl; lia.
    + eexists. split; [reflexivity|]. simpl. repeat split; try reflexivity.
      * intros i Hi. apply elem_of_empty in Hi. contradiction.
      * intros (-> & -> & ->). simpl. lia.
  - eexists. split; [reflexivity|].
    destruct (decide (tool st = ToolPen)); simpl; repeat split; try reflexivity;
      try (intros i Hi; left; exact Hi);
      intros (_ & -> & ->); simpl; lia.
Qed.

Lemma endDraw_effect (canvas : Canvas num) (id : string) (e : MouseEvent num)
    (st : State num) :
  selectedShapeIds (endDraw canvas id e st) = selectedShapeIds st /\
  (shapes (endDraw canvas id e st) = shapes st \/
   exists s, shapes (endDraw canvas id e st) = shapes st ++ [s] /\
             shape_id s = id /\ committed_pen s) /\
  (single_mode st -> idle (endDraw canvas id e st)).
Proof.
  unfold endDraw, single_mode, idle.
  destruct (isPanning st) eqn:Hp, (isDragging st) eqn:Hd, (isDrawing st) eqn:Hdr;
    simpl; rewrite ?Hp, ?Hd, ?Hdr;
    try (split; [reflexivity|]; split; [left; reflexivity|]; simpl; intros; repeat split; lia).
  destruct (hasContext canvas); simpl.
  2:{ split; [reflexivity|]. split; [left; reflexivity|]. intros _. repeat split; assumption. }
  destruct (tool st) eqn:Ht; simpl.
  - destruct (Nat.ltb_spec 1 (length (currentPenPoints st))); simpl.
    + split; [reflexivity|]. split; [|intros _; rewrite ?Hp, ?Hd; repeat split; reflexivity].
      right. eexists. split; [reflexivity|]. split; [reflexivity|]. simpl. lia.
    + split; [reflexivity|]. split; [left; reflexivity|].
      intros _. rewrite ?Hp, ?Hd. repeat split; reflexivity.
  - split; [reflexivity|]. split; [|intros _; rewrite ?Hp, ?Hd; repeat split; reflexivity].
    right. eexists. split; [reflexivity|]. split; reflexivity.
  - split; [reflexivity|]. split; [|intros _; rewrite ?Hp, ?Hd; repeat split; reflexivity].
    right. eexists. split; [reflexivity|]. split; reflexivity.
  - split; [reflexivity|]. split; [|intros _; rewrite ?Hp, ?Hd; repeat split; reflexivity].
    right. eexists. split; [reflexivity|]. split; reflexivity.
  - split; [reflexivity|]. split; [left; reflexivity|].
    intros _. rewrite ?Hp, ?Hd. repeat split; reflexivity.
Qed.



(** *** The scene under the handlers *)



Lemma parseSVGElement_some (id : string) (el : Element) (s : Shape num) :
  parseSVGElement id el = Some s -> shape_id s = id /\ committed_pen s.
Proof.
  unfold parseSVGElement.
  repeat match goal with
         | |- context [if ?b then _ else _] => destruct b eqn:?
         | |- context [match getAttribute el ?n with _ => _ end] =>
             destruct (getAttribute el n)
         end;
    intros Hs; inversion Hs; subst; simpl; try (split; [reflexivity|exact I]).
  - split; [reflexivity|].
    match goal with Hl : (length ?l <? 2)%nat = false |- _ => apply Nat.ltb_ge in Hl; exact Hl end.
  - split; [reflexivity|].
    match goal with Hl : (length ?l <? 2)%nat = false |- _ => apply Nat.ltb_ge in Hl; exact Hl end.
Qed.

Lemma importShapes_shapes (els : list (string * Element)) (st : State num) :
  shapes (importShapes els st) = shapes st ++ imported els /\
  selectedShapeIds (importShapes els st) = selectedShapeIds st.
Proof.
  unfold importShapes. fold (imported els).
  destruct (imported els) as [|s l]; simpl; [rewrite app_nil_r|]; split; reflexivity.
Qed.


Lemma imported_ids (els : list (string * Element)) :
  sublist (map shape_id (imported els)) (map fst els).
Proof.
  unfold imported. induction els as [|[id el] els IH]; simpl; [constructor|].
  destruct (parseSVGElement id el) as [s|] eqn:Hs; simpl.
  - destruct (parseSVGElement_some id el s Hs) as [-> _]. apply sublist_skip. exact IH.
  - apply sublist_cons. exact IH.
Qed.






End HandlerProps.

(** ** Selecting and deleting *)

Section SceneProps.
Context {num : Type} `{Arith num} `{MathLib num} `{NonFinite num}.
Local Open Scope js_scope.

Lemma filter_all {A : Type} (P : A -> Prop) `{forall x, Decision (P x)} (l : list A) :
  Forall P l -> filter P l = l.
Proof.
  induction l as [|x l IH]; intros Hl; [reflexivity|].
  inversion Hl; subst. rewrite filter_cons_True by assumption. f_equal. apply IH. assumption.
Qed.

(** X7: the toolbar's delete button and the Delete key have the same effect in
    every state. *)
Theorem onDelete_same_as_key (st : State num) :
  onDelete st = handleKeyDown "Delete" st.
Proof.
  unfold onDelete, handleKeyDown. simpl.
  destruct (Nat.ltb_spec 0 (size (selectedShapeIds st))) as [Hpos|Hzero]; [reflexivity|].
  assert (Hempty : selectedShapeIds st = ∅).
  { apply leibniz_equiv. apply size_empty_iff. lia. }
  rewrite filter_all.
  - destruct st; simpl in *. subst. reflexivity.
  - apply Forall_forall. intros s _. rewrite Hempty. apply not_elem_of_empty.
Qed.

(** X8: ids stay unique: a press, a move, a deletion keep the ids of the scene
    without repetition, and so do a release whose generated id is not in
    use and an import whose generated ids are distinct and not in use. *)
Theorem ids_stay_unique (st : State num) :
  unique_ids st ->
  (forall canvas e st1, startDraw canvas e st = Some st1 -> unique_ids st1) /\
  (forall canvas e, unique_ids (draw canvas e st)) /\
  (forall canvas id e,
     id ∉ map shape_id (shapes st) -> unique_ids (endDraw canvas id e st)) /\
  (forall key, unique_ids (handleKeyDown key st)) /\
  unique_ids (onDelete st) /\
  (forall els,
     NoDup (map fst els) ->
     (forall i, i ∈ map fst els -> i ∉ map shape_id (shapes st)) ->
     unique_ids (importShapes els st)).
Proof.
  unfold unique_ids. intros Hinv.
  assert (Hdel : NoDup (map shape_id
            (filter (fun s => shape_id s ∉ selectedShapeIds st) (shapes st)))).
  { eapply sublist_NoDup; [exact Hinv|]. apply fmap_sublist. apply sublist_filter. }
  split; [|split; [|split; [|split; [|split]]]].
  - intros canvas e st1 Hs.
    destruct (startDraw_effect canvas e st) as (st1' & Hst1 & Hsh & _).
    rewrite Hs in Hst1. inversion Hst1; subst st1'. rewrite Hsh. exact Hinv.
  - intros canvas e.
    destruct (draw_frame canvas e st) as (_ & _ & _ & _ & _ & _ & _ & ->). exact Hinv.
  - intros canvas id e Hfresh.
    destruct (endDraw_effect canvas id e st) as (_ & [->|(s & -> & Hid & _)] & _); [exact Hinv|].
    rewrite map_app. apply NoDup_app. split; [exact Hinv|]. split.
    + intros i Hi Hin. simpl in Hin. apply list_elem_of_singleton in Hin. subst i.
      rewrite Hid in Hi. contradiction.
    + simpl. apply NoDup_singleton.
  - intros key. unfold handleKeyDown.
    destruct ((key =? "Delete")%string && (0 <? size (selectedShapeIds st))%nat);
      [exact Hdel|exact Hinv].
  - exact Hdel.
  - intros els Hnd Hfresh.
    destruct (importShapes_shapes els st) as [-> _].
    pose proof (imported_ids els) as Hsub.
    rewrite map_app. apply NoDup_app. split; [exact Hinv|]. split.
    + intros i Hi Hin. apply (Hfresh i); [|exact Hi].
      eapply elem_of_sublist; eassumption.
    + eapply sublist_NoDup; eassumption.
Qed.

(** X9: a click with the select tool selects the topmost shape under the
    pointer, the last one in the scene that the hit test accepts, and
    starts dragging it; a click that hits nothing empties the selection.
    The scene itself is not changed. *)
Theorem startDraw_selects_topmost (canvas : Canvas num) (e : MouseEvent num)
    (st : State num) :
  tool st = ToolSelect -> isPanButton e = false -> shiftKey e = false ->
  exists st1,
    startDraw canvas e st = Some st1 /\ shapes st1 = shapes st /\
    ((exists before s after,
        shapes st = before ++ s :: after /\
        isPointInShape (zoom st) (pos st canvas e) s = Some true /\
        Forall (fun t => isPointInShape (zoom st) (pos st canvas e) t = Some false) after /\
        selectedShapeIds st1 = {[ shape_id s ]} /\ isDragging st1 = true) \/
     (Forall (fun t => isPointInShape (zoom st) (pos st canvas e) t = Some false) (shapes st) /\
      selectedShapeIds st1 = ∅ /\ isDragging st1 = isDragging st)).
Proof.
  unfold isPanButton. intros Htool Hpan Hshift. unfold startDraw.
  rewrite Hpan. destruct (decide (tool st = ToolSelect)) as [_|Hne]; [|contradiction].
  destruct (findLast_spec (isPointInShape (zoom st) (pos st canvas e)) (shapes st)
              (isPointInShape_some _ _))
    as [(before & s & after & Hl & Hs & Hafter & ->)|[Hall ->]]; simpl; rewrite ?Hshift.
  - destruct (getShapeBounds s); eexists; (split; [reflexivity|]);
      (split; [reflexivity|]); left; exists before, s, after; repeat split; assumption.
  - eexists. split; [reflexivity|]. split; [reflexivity|]. right. repeat split. exact Hall.
Qed.


End SceneProps.

(** ** Gestures and the importer *)

Section GestureProps.
Context {num : Type} `{Arith num} `{MathLib num}.
Local Open Scope js_scope.

(** X11: a move while dragging translates every selected shape by one common
    vector, the pointer's world position minus the drag offset, and leaves
    every other shape as it is; the shapes keep their ids, their order,
    their number and their extents, and no other cell of the state
    changes. *)
Theorem draw_drags_selection (canvas : Canvas num) (e : MouseEvent num) (st : State num) :
  isPanning st = false -> isDragging st = true -> tool st = ToolSelect ->
  let dx := pt_x (pos st canvas e) - pt_x (dragOffset st) in
  let dy := pt_y (pos st canvas e) - pt_y (dragOffset st) in
  let st' := draw canvas e st in
  st' = setShapes (shapes st') st /\
  length (shapes st') = length (shapes st) /\
  map shape_id (shapes st') = map shape_id (shapes st) /\
  map extents (shapes st') = map extents (shapes st) /\
  (forall i s, shapes st !! i = Some s ->
     shapes st' !! i =
     Some (if decide (shape_id s ∈ selectedShapeIds st) then moveShapeBy s dx dy else s)).
Proof.
  intros Hpan Hdrag Htool dx dy st'. subst st'. unfold draw.
  rewrite Hpan, Hdrag, Htool. simpl. fold dx dy.
  split; [reflexivity|]. split; [apply length_map|].
  split; [|split].
  - rewrite map_map. apply map_ext. intros s.
    destruct (decide (shape_id s ∈ selectedShapeIds st)); [apply moveShapeBy_id|reflexivity].
  - rewrite map_map. apply map_ext. intros s.
    destruct (decide (shape_id s ∈ selectedShapeIds st)); [apply moveShapeBy_extents|reflexivity].
  - intros i s Hs. rewrite list_lookup_fmap. rewrite Hs. reflexivity.
Qed.

Lemma drawMoves_pen (canvas : Canvas num) (es : list (MouseEvent num)) (st : State num) :
  isPanning st = false -> isDragging st = false -> isDrawing st = true ->
  hasContext canvas = true -> tool st = ToolPen ->
  drawMoves canvas es st =
  setCurrentPenPoints (currentPenPoints st ++ map (snapped st canvas) es) st.
Proof.
  unfold drawMoves. revert st. induction es as [|e es IH]; intros st Hp Hd Hdr Hc Ht; simpl.
  - rewrite app_nil_r. destruct st; reflexivity.
  - assert (Hstep : draw canvas e st =
                    setCurrentPenPoints (currentPenPoints st ++ [snapped st canvas e]) st).
    { unfold draw. rewrite Hp, Hd, Hdr, Hc, Ht. simpl. reflexivity. }
    rewrite Hstep. rewrite IH by (simpl; assumption).
    simpl. rewrite <- app_assoc. simpl. reflexivity.
Qed.

Context `{NonFinite num}.

(** X12: a pen gesture from the idle state: the press seeds the buffer with its
    snapped point, every move appends its snapped point, and the release
    commits one Pen shape with exactly these points in order when there
    was at least one move, and nothing when there was none. *)
Theorem pen_gesture_commits_path (canvas : Canvas num) (down up : MouseEvent num)
    (es : list (MouseEvent num)) (id : string) (st : State num) :
  idle st -> tool st = ToolPen -> isPanButton down = false ->
  hasContext canvas = true ->
  exists st1,
    startDraw canvas down st = Some st1 /\
    currentPenPoints (drawMoves canvas es st1) =
      snapped st canvas down :: map (snapped st canvas) es /\
    shapes (endDraw canvas id up (drawMoves canvas es st1)) =
      match es with
      | [] => shapes st
      | _ => shapes st ++ [Pen id (snapped st canvas down :: map (snapped st canvas) es)]
      end.
Proof.
  unfold idle, isPanButton. intros (Hdr & Hp & Hd) Ht Hb Hc.
  unfold startDraw. rewrite Hb, Ht. simpl.
  eexists. split; [reflexivity|].
  rewrite drawMoves_pen by (simpl; first [assumption|reflexivity]).
  split; [reflexivity|].
  unfold endDraw. simpl. rewrite Hp, Hd, Hc, Ht. simpl.
  rewrite length_map.
  destruct es as [|e es]; reflexivity.
Qed.

(** X13: an import keeps every cell of the state but the scene, keeps the
    shapes of the scene as they are and in place, and appends after them
    at most one shape per element, in document order, each with the id
    generated for its element; if no element gives a shape, the state is
    unchanged. *)
Theorem importShapes_appends (els : list (string * Element)) (st : State num) :
  shapes (importShapes els st) = shapes st ++ imported els /\
  importShapes els st = setShapes (shapes st ++ imported els) st /\
  sublist (map shape_id (imported els)) (map fst els) /\
  (length (imported els) <= length els)%nat /\
  (imported els = [] -> importShapes els st = st).
Proof.
  split; [apply importShapes_shapes|].
  split.
  { unfold importShapes. fold (imported els).
    destruct (imported els); simpl; [|reflexivity].
    rewrite app_nil_r. destruct st; reflexivity. }
  split; [apply imported_ids|].
  split.
  { pose proof (sublist_length _ _ (imported_ids els)) as Hlen.
    rewrite !length_map in Hlen. exact Hlen. }
  intros Hnil. unfold importShapes. fold (imported els). rewrite Hnil. reflexivity.
Qed.

(** X14: what [parseSVGElement] returns carries the generated id, and a Pen
    that it returns has at least two points. *)
Theorem parseSVGElement_result (id : string) (el : Element) (s : Shape num) :
  parseSVGElement id el = Some s -> shape_id s = id /\ committed_pen s.
Proof. apply parseSVGElement_some. Qed.

Lemma pair_up_length_two (tokens : list string) :
  length (pair_up (num := num) tokens) = (length tokens / 2)%nat /\
  forall t, length (pair_up (num := num) (t :: tokens)) = (S (length tokens) / 2)%nat.
Proof.
  induction tokens as [|t1 tokens [IH0 IH1]].
  - split; [reflexivity|]. intros t. reflexivity.
  - split; [apply IH1|].
    intros t. simpl pair_up. simpl length. rewrite IH0.
    replace (S (S (length tokens))) with (length tokens + 1 * 2)%nat by lia.
    rewrite Nat.div_add by lia. lia.
Qed.

Lemma pair_up_length (tokens : list string) :
  length (pair_up (num := num) tokens) = (length tokens / 2)%nat.
Proof. apply pair_up_length_two. Qed.

Lemma pair_up_lookup (tokens : list string) (i : nat) (t0 t1 : string) :
  tokens !! (2 * i)%nat = Some t0 -> tokens !! (2 * i + 1)%nat = Some t1 ->
  pair_up (num := num) tokens !! i = Some (mkPoint (parseFloat t0) (parseFloat t1)).
Proof.
  revert tokens. induction i as [|i IH]; intros tokens H0' H1'.
  - destruct tokens as [|a [|b rest]]; simpl in *; try discriminate.
    inversion H0'; inversion H1'; subst. reflexivity.
  - destruct tokens as [|a [|b rest]]; simpl in *; try discriminate.
    apply IH.
    + replace (i + S (i + 0))%nat with (S (2 * i)) in H0' by lia. exact H0'.
    + replace (i + S (i + 0) + 1)%nat with (S (2 * i + 1)) in H1' by lia. exact H1'.
Qed.

(** X15: [parsePoints] reads the tokens of the attribute two by two: from [k]
    tokens it makes [k / 2] points, the [i]-th from the tokens [2 i] and
    [2 i + 1], and it drops a token that is left over. *)
Theorem parsePoints_pairs (pointsAttr : string) :
  let tokens := Str.split_runs Str.is_space_or_comma (Str.trim pointsAttr) in
  length (parsePoints (num := num) pointsAttr) = (length tokens / 2)%nat /\
  (forall i t0 t1,
     tokens !! (2 * i)%nat = Some t0 -> tokens !! (2 * i + 1)%nat = Some t1 ->
     parsePoints (num := num) pointsAttr !! i =
     Some (mkPoint (parseFloat t0) (parseFloat t1))).
Proof.
  intros tokens. unfold parsePoints. fold tokens.
  split; [apply pair_up_length|apply pair_up_lookup].
Qed.

(** X16: a path yields at most one point for each of its [M], [m], [L] and [l]
    commands, whatever else it holds; data without such a command give no
    point, and so no shape. *)
Theorem parsePath_point_count (id d : string) :
  (length (parsePath (num := num) d) <=
   length (filter (fun c => is_move_or_line c = true)
                  (Str.match_chars Str.is_command d)))%nat /\
  (filter (fun c => is_move_or_line c = true) (Str.match_chars Str.is_command d) = [] ->
   parsePath (num := num) d = [] /\
   parseSVGElement (num := num) id (mkElement "path" [("d", d)]) = None).
Proof.
  assert (Hlen : (length (parsePath (num := num) d) <=
            length (filter (fun c => is_move_or_line c = true)
                           (Str.match_chars Str.is_command d)))%nat).
  { unfold parsePath. apply (path_fold_length _ _ (O, mkPoint (int 0) (int 0), [])). }
  split; [exact Hlen|].
  intros Hnone. rewrite Hnone in Hlen. simpl in Hlen.
  assert (Hnil : parsePath (num := num) d = []).
  { destruct (parsePath d); [reflexivity|simpl in Hlen; lia]. }
  split; [exact Hnil|].
  apply parseSVGElement_short_path. rewrite Hnil. simpl. lia.
Qed.

End GestureProps.

(** ** Geometry in exact arithmetic *)

Module ExactGeometry.
Import Exact ExactVocabulary.
Local Open Scope R_scope.

Lemma sum_squares_nonneg (x y : R) : 0 <= x * x + y * y.
Proof. nra. Qed.

Lemma sqrt_squares_zero (x y : R) : x = 0 -> y = 0 -> R_sqrt.sqrt (x * x + y * y) = 0.
Proof. intros -> ->. replace (0 * 0 + 0 * 0) with 0 by lra. apply sqrt_0. Qed.

(** [distanceToSegment], written out: the clamped parameter [t] of the
    projection and the distance to the projected point. *)
Lemma distanceToSegment_value (p a b : Point R) :
  let dx := pt_x b - pt_x a in
  let dy := pt_y b - pt_y a in
  let t := Rmax 0 (Rmin 1 (((pt_x p - pt_x a) * dx + (pt_y p - pt_y a) * dy) / (dx * dx + dy * dy))) in
  distanceToSegment p a b =
  if decide (dx * dx + dy * dy = 0)
  then dist p a
  else dist p (mkPoint (pt_x a + t * dx) (pt_y a + t * dy)).
Proof.
  intros dx dy t. unfold distanceToSegment, dist. cbn. fold dx dy.
  replace (0 / 1) with 0 by lra. replace (1 / 1) with 1 by lra.
  pose proof (sum_squares_nonneg dx dy) as Hnn.
  destruct (decide (dx * dx + dy * dy = 0)) as [Hz|Hnz].
  - rewrite bool_decide_eq_true_2; [reflexivity|]. rewrite Hz. apply sqrt_0.
  - rewrite bool_decide_eq_false_2.
    + rewrite (sqrt_sqrt _ Hnn). reflexivity.
    + intros Hs. apply Hnz. apply sqrt_eq_0; assumption.
Qed.

Lemma distanceToSegment_along (a b : Point R) (s : R) :
  0 <= s <= 1 -> distanceToSegment (along a b s) a b = 0.
Proof.
  intros Hs. rewrite distanceToSegment_value. unfold along, dist. cbn.
  set (dx := pt_x b - pt_x a). set (dy := pt_y b - pt_y a).
  pose proof (sum_squares_nonneg dx dy) as Hnn.
  destruct (decide (dx * dx + dy * dy = 0)) as [Hz|Hnz].
  - assert (dx = 0 /\ dy = 0) as [Hx Hy] by (split; nra).
    apply sqrt_squares_zero; rewrite ?Hx, ?Hy; lra.
  - replace ((pt_x a + s * dx - pt_x a) * dx + (pt_y a + s * dy - pt_y a) * dy)
      with (s * (dx * dx + dy * dy)) by ring.
    replace (s * (dx * dx + dy * dy) / (dx * dx + dy * dy)) with s by (field; exact Hnz).
    rewrite (Rmin_right 1 s) by lra. rewrite (Rmax_right 0 s) by lra.
    apply sqrt_squares_zero; ring.
Qed.

Lemma threshold_positive (z : R) : 0 < z -> 0 < int 10 / z.
Proof.
  intros Hz. unfold int. cbn. apply Rdiv_lt_0_compat; lra.
Qed.

(** X17: every point of the segment of a line shape is hit at every zoom
    [z > 0]: the distance from such a point to the segment is 0.  In
    particular both end points are hit. *)
Theorem line_hit_on_segment (z : R) (id : string) (x1 y1 x2 y2 s : R) :
  0 < z -> 0 <= s <= 1 ->
  distanceToSegment (along (mkPoint x1 y1) (mkPoint x2 y2) s)
                    (mkPoint x1 y1) (mkPoint x2 y2) = 0 /\
  isPointInShape z (along (mkPoint x1 y1) (mkPoint x2 y2) s) (Line id x1 y1 x2 y2)
    = Some true /\
  isPointInShape z (mkPoint x1 y1) (Line id x1 y1 x2 y2) = Some true /\
  isPointInShape z (mkPoint x2 y2) (Line id x1 y1 x2 y2) = Some true.
Proof.
  intros Hz Hs.
  assert (Hhit : forall t, 0 <= t <= 1 ->
            isPointInShape z (along (mkPoint x1 y1) (mkPoint x2 y2) t) (Line id x1 y1 x2 y2)
            = Some true).
  { intros t Ht. unfold isPointInShape. rewrite distanceToSegment_along by exact Ht.
    f_equal. apply bool_decide_eq_true. apply threshold_positive. exact Hz. }
  split; [apply distanceToSegment_along; exact Hs|].
  split; [apply Hhit; exact Hs|].
  split.
  - replace (mkPoint x1 y1) with (along (mkPoint x1 y1) (mkPoint x2 y2) 0) at 1
      by (unfold along; cbn; f_equal; ring).
    apply Hhit. lra.
  - replace (mkPoint x2 y2) with (along (mkPoint x1 y1) (mkPoint x2 y2) 1) at 1
      by (unfold along; cbn; f_equal; ring).
    apply Hhit. lra.
Qed.

Lemma dist_nonneg (p q : Point R) : 0 <= dist p q.
Proof. unfold dist. apply sqrt_pos. Qed.

(** X18: the distance that [distanceToSegment] returns is not negative and is
    at most the distance from the point to either end of the segment. *)
Theorem distanceToSegment_bounds (p a b : Point R) :
  0 <= distanceToSegment p a b /\
  distanceToSegment p a b <= dist p a /\
  distanceToSegment p a b <= dist p b.
Proof.
  rewrite distanceToSegment_value.
  set (dx := pt_x b - pt_x a). set (dy := pt_y b - pt_y a).
  set (qx := pt_x p - pt_x a). set (qy := pt_y p - pt_y a).
  pose proof (sum_squares_nonneg dx dy) as Hnn.
  destruct (decide (dx * dx + dy * dy = 0)) as [Hz|Hnz].
  - split; [apply dist_nonneg|]. split; [lra|].
    assert (dx = 0 /\ dy = 0) as [Hx Hy] by (split; nra).
    unfold dist. apply Req_le. f_equal.
    unfold dx, dy in Hx, Hy. replace (pt_x b) with (pt_x a) by lra.
    replace (pt_y b) with (pt_y a) by lra. reflexivity.
  - split; [apply dist_nonneg|].
    set (D := dx * dx + dy * dy) in *.
    assert (HD : 0 < D) by lra.
    set (u := (qx * dx + qy * dy) / D).
    assert (Hu : u * D = qx * dx + qy * dy) by (unfold u; field; lra).
    set (t := Rmax 0 (Rmin 1 u)).
    assert (Ht : 0 <= t <= 1 /\ (u <= 0 -> t = 0) /\ (1 <= u -> t = 1) /\
                 (0 <= u <= 1 -> t = u)).
    { unfold t, Rmax, Rmin.
      destruct (Rle_dec 1 u); destruct (Rle_dec 0 _); repeat split; intros; lra. }
    destruct Ht as (Ht01 & Htneg & Htbig & Htmid).
    assert (Hsq : (pt_x p - (pt_x a + t * dx)) * (pt_x p - (pt_x a + t * dx)) +
                  (pt_y p - (pt_y a + t * dy)) * (pt_y p - (pt_y a + t * dy)) =
                  qx * qx + qy * qy + D * (t * (t - 2 * u))).
    { unfold qx, qy. replace (D * (t * (t - 2 * u))) with (D * t * t - 2 * t * (u * D)) by ring.
      rewrite Hu. unfold D, qx, qy. ring. }
    assert (Hcase : t * (t - 2 * u) <= 0 /\ t * (t - 2 * u) <= 1 - 2 * u).
    { destruct (Rle_dec u 0) as [Hu0|Hu0].
      - rewrite (Htneg Hu0). split; lra.
      - destruct (Rle_dec 1 u) as [Hu1|Hu1].
        + rewrite (Htbig Hu1). split; lra.
        + rewrite (Htmid ltac:(lra)). split; nra. }
    destruct Hcase as [Hca Hcb].
    unfold dist. cbn [pt_x pt_y]. rewrite Hsq. split.
    + apply sqrt_le_1_alt. fold qx qy. nra.
    + apply sqrt_le_1_alt.
      replace ((pt_x p - pt_x b) * (pt_x p - pt_x b) + (pt_y p - pt_y b) * (pt_y p - pt_y b))
        with (qx * qx + qy * qy + D * (1 - 2 * u)).
      * nra.
      * replace (D * (1 - 2 * u)) with (D - 2 * (u * D)) by ring.
        rewrite Hu. unfold D, qx, qy, dx, dy. ring.
Qed.

(** X19: every vertex of a pen shape with two points or more is hit at every
    zoom [z > 0]. *)
Theorem pen_hit_at_vertices (z : R) (id : string) (points : list (Point R))
    (j : nat) (p : Point R) :
  0 < z -> (2 <= length points)%nat -> points !! j = Some p ->
  isPointInShape z p (Pen id points) = Some true.
Proof.
  intros Hz Hlen Hj.
  unfold isPointInShape, pen_hit.
  apply (pen_loop_hit_iff p points _ _ O); [lia|].
  pose proof (lookup_lt_Some _ _ _ Hj) as Hjlt.
  destruct (decide (S j < length points)%nat) as [Hnext|Hlast].
  - destruct (lookup_lt_is_Some_2 points (S j) Hnext) as [q Hq].
    exists j, p, q. split; [lia|]. split; [exact Hj|]. split; [exact Hq|].
    apply bool_decide_eq_true.
    replace p with (along p q 0) at 1 by (destruct p; unfold along; cbn; f_equal; ring).
    rewrite distanceToSegment_along by lra. apply threshold_positive. exact Hz.
  - destruct j as [|j]; [lia|].
    destruct (lookup_lt_is_Some_2 points j ltac:(lia)) as [q Hq].
    exists j, q, p. split; [lia|]. split; [exact Hq|]. split; [exact Hj|].
    apply bool_decide_eq_true.
    replace p with (along q p 1) at 1 by (destruct p; unfold along; cbn; f_equal; ring).
    rewrite distanceToSegment_along by lra. apply threshold_positive. exact Hz.
Qed.

Lemma rect_hit_value (z : R) (p : Point R) (id : string) (x y w h : R) :
  isPointInShape z p (Rect id x y w h) =
  Some (bool_decide (x <= pt_x p <= x + w /\ y <= pt_y p <= y + h)).
Proof.
  unfold isPointInShape. cbn. f_equal.
  repeat case_bool_decide; simpl; try reflexivity; exfalso; lra.
Qed.

(** X20: a rect with non-negative [w] and [h] is hit at its centre and on its
    border, at every zoom, and is not hit at its centre moved by
    [(w + 100, h + 100)]. *)
Theorem rect_hit_centre_not_far (z : R) (id : string) (x y w h : R) :
  0 <= w -> 0 <= h ->
  isPointInShape z (mkPoint (x + w / 2) (y + h / 2)) (Rect id x y w h) = Some true /\
  isPointInShape z (mkPoint x y) (Rect id x y w h) = Some true /\
  isPointInShape z (mkPoint (x + w) (y + h)) (Rect id x y w h) = Some true /\
  isPointInShape z (mkPoint (x + w / 2 + (w + 100)) (y + h / 2 + (h + 100)))
                 (Rect id x y w h) = Some false.
Proof.
  intros Hw Hh. rewrite !rect_hit_value. cbn.
  repeat split; f_equal;
    first [apply bool_decide_eq_true; lra | apply bool_decide_eq_false; lra].
Qed.

(** X21: a rect whose [w] or [h] is negative, as a drag to the left or upwards
    commits it, is hit by no point at any zoom. *)
Theorem rect_negative_extent_never_hit (z : R) (p : Point R) (id : string) (x y w h : R) :
  w < 0 \/ h < 0 ->
  isPointInShape z p (Rect id x y w h) = Some false.
Proof.
  intros Hneg. rewrite rect_hit_value. f_equal. apply bool_decide_eq_false. lra.
Qed.

End ExactGeometry.

(** ** Interaction in exact arithmetic *)

Module ExactInteraction.
Import Exact ExactVocabulary.
Local Open Scope R_scope.


(** X23: zoom steps make progress: within [0.1, 5] a zoom-in step raises the
    zoom unless it is 5 already, where it stays, a zoom-out step lowers it
    unless it is 0.1 already, where it stays, and a wheel tick does the
    same, down for a positive [deltaY] and up otherwise. *)
Theorem zoom_steps_progress (st : State R) :
  in_zoom_range (zoom st) ->
  (zoom st < 5 -> zoom st < zoom (handleZoomIn st)) /\
  (zoom st = 5 -> zoom (handleZoomIn st) = 5) /\
  (/ 10 < zoom st -> zoom (handleZoomOut st) < zoom st) /\
  (zoom st = / 10 -> zoom (handleZoomOut st) = / 10) /\
  (forall cv e, 0 < deltaY e ->
     (/ 10 < zoom st -> zoom (handleWheel (Some cv) e st) < zoom st) /\
     (zoom st = / 10 -> zoom (handleWheel (Some cv) e st) = / 10)) /\
  (forall cv e, deltaY e <= 0 ->
     (zoom st < 5 -> zoom st < zoom (handleWheel (Some cv) e st)) /\
     (zoom st = 5 -> zoom (handleWheel (Some cv) e st) = 5)).
Proof.
  unfold in_zoom_range. intros Hz.
  pose proof ExactProps.pow_10_21_big as Hbig.
  assert (Hin : zoom (handleZoomIn st) = Rmin (RtoFixed2 (zoom st * (12 / 10))) 5).
  { cbn. replace (10 * 1) with 10 by lra. replace (5 / 1) with 5 by lra. reflexivity. }
  assert (Hout : zoom (handleZoomOut st) = Rmax (RtoFixed2 (zoom st / (12 / 10))) (1 / 10)).
  { cbn. replace (10 * 1) with 10 by lra. reflexivity. }
  destruct (ExactProps.RtoFixed2_hundredths (zoom st * (12 / 10)) ltac:(split; nra)) as [_ Hi].
  destruct (ExactProps.RtoFixed2_hundredths (zoom st / (12 / 10)) ltac:(split; lra)) as [_ Ho].
  destruct (ExactProps.RtoFixed2_hundredths (zoom st * (9 / 10)) ltac:(split; nra)) as [_ Hd].
  destruct (ExactProps.RtoFixed2_hundredths (zoom st * (11 / 10)) ltac:(split; nra)) as [_ Hu].
  rewrite Hin, Hout.
  split; [|split; [|split; [|split; [|split]]]].
  - intros Hlt. unfold Rmin. destruct (Rle_dec _ 5); lra.
  - intros Heq. unfold Rmin. destruct (Rle_dec _ 5); lra.
  - intros Hgt. unfold Rmax. destruct (Rle_dec _ (1 / 10)); lra.
  - intros Heq. unfold Rmax. destruct (Rle_dec _ (1 / 10)); lra.
  - intros cv e Hpos.
    change (zoom (handleWheel (Some cv) e st)) with (wheelZoom (zoom st) (deltaY e)).
    rewrite ExactProps.wheelZoom_value.
    rewrite bool_decide_eq_true_2 by exact Hpos.
    unfold Rmin, Rmax.
    split; intros Hc; destruct (Rle_dec _ (1 / 10)); destruct (Rle_dec _ 5); lra.
  - intros cv e Hneg.
    change (zoom (handleWheel (Some cv) e st)) with (wheelZoom (zoom st) (deltaY e)).
    rewrite ExactProps.wheelZoom_value.
    rewrite bool_decide_eq_false_2 by lra.
    unfold Rmin, Rmax.
    split; intros Hc; destruct (Rle_dec _ (1 / 10)); destruct (Rle_dec _ 5); lra.
Qed.

(** X24: while panning, the pan follows the pointer: with the pan start that
    the press at [e0] recorded for the pan [pan0], a move to [e] sets the
    pan to [pan0] plus the pointer's displacement, so that the world point
    under the pointer stays the one that was pressed; zoom and scene are
    not touched. *)
Theorem draw_pans_with_pointer (canvas : Canvas R) (e0 e : MouseEvent R)
    (pan0 : Point R) (st : State R) :
  isPanning st = true ->
  panStart st = mkPoint (clientX e0 - pt_x pan0) (clientY e0 - pt_y pan0) ->
  pan (draw canvas e st) =
    mkPoint (pt_x pan0 + (clientX e - clientX e0)) (pt_y pan0 + (clientY e - clientY e0)) /\
  screenToWorld (zoom st) (pan (draw canvas e st))
                (canvasPoint canvas (clientX e) (clientY e)) =
  screenToWorld (zoom st) pan0 (canvasPoint canvas (clientX e0) (clientY e0)) /\
  draw canvas e st = setPan (pan (draw canvas e st)) st.
Proof.
  intros Hp Hstart. unfold draw. rewrite Hp, Hstart. simpl.
  split; [cbn; f_equal; ring|]. split; [|reflexivity].
  unfold screenToWorld, canvasPoint. cbn. f_equal; f_equal; ring.
Qed.

(** X25: the drag offset that a click records is the clicked point minus the
    corner of the shape's box, and a move translates by the pointer's
    position minus that offset: so a selected rect anchored at [(x, y)] is
    displaced by the pointer's displacement since the click plus [(x, y)]
    itself, and follows the pointer only when it is anchored at the
    origin. *)
Theorem drag_adds_anchor (canvas : Canvas R) (e : MouseEvent R) (st : State R)
    (i : nat) (id : string) (x y w h p0x p0y : R) :
  isPanning st = false -> isDragging st = true -> tool st = ToolSelect ->
  shapes st !! i = Some (Rect id x y w h) -> id ∈ selectedShapeIds st ->
  dragOffset st = mkPoint (p0x - x) (p0y - y) ->
  shapes (draw canvas e st) !! i =
  Some (Rect id (x + ((pt_x (pos st canvas e) - p0x) + x))
                (y + ((pt_y (pos st canvas e) - p0y) + y)) w h).
Proof.
  intros Hp Hd Ht Hi Hsel Hoff. unfold draw. rewrite Hp, Hd, Ht. simpl.
  rewrite list_lookup_fmap, Hi. simpl.
  destruct (decide (id ∈ selectedShapeIds st)) as [_|Hn]; [|contradiction].
  rewrite Hoff. cbn. do 2 f_equal; ring.
Qed.

Lemma on_grid_snap (x : R) : on_grid (snap x).
Proof. rewrite ExactProps.snap_multiple. eexists. reflexivity. Qed.

Lemma on_grid_minus (a b : R) : on_grid a -> on_grid b -> on_grid (a - b).
Proof.
  intros [k ->] [l ->]. exists (k - l)%Z. rewrite minus_IZR. ring.
Qed.

(** X26: what a gesture commits is on the grid: a move with the pen tool
    appends a grid point to the buffer, and when the start point and the
    buffer are on the grid the shape that the release appends has its
    positions and its extents on the grid (for a circle, its centre, with
    a radius that is not negative). *)
Theorem gestures_commit_on_grid (canvas : Canvas R) (id : string) (e : MouseEvent R)
    (st : State R) :
  isPanning st = false -> isDragging st = false -> isDrawing st = true ->
  hasContext canvas = true ->
  grid_point (start st) -> Forall grid_point (currentPenPoints st) ->
  (tool st = ToolPen -> Forall grid_point (currentPenPoints (draw canvas e st))) /\
  (forall s, shapes (endDraw canvas id e st) = shapes st ++ [s] -> shape_on_grid s).
Proof.
  intros Hp Hd Hdr Hc [Hsx Hsy] Hbuf.
  split.
  - intros Ht. unfold draw. rewrite Hp, Hd, Hdr, Hc, Ht. simpl.
    apply Forall_app. split; [exact Hbuf|].
    constructor; [|constructor]. split; apply on_grid_snap.
  - intros s. unfold endDraw. rewrite Hp, Hd, Hdr, Hc. simpl.
    destruct (tool st) eqn:Ht; simpl.
    + destruct (Nat.ltb_spec 1 (length (currentPenPoints st))); simpl; intros Hs.
      * apply app_inj_tail in Hs as [_ <-]. exact Hbuf.
      * exfalso. apply (f_equal length) in Hs. rewrite length_app in Hs. simpl in Hs. lia.
    + intros Hs. apply app_inj_tail in Hs as [_ <-]. simpl.
      repeat split; try assumption; apply on_grid_minus; try assumption; apply on_grid_snap.
    + intros Hs. apply app_inj_tail in Hs as [_ <-]. simpl.
      repeat split; try assumption. apply sqrt_pos.
    + intros Hs. apply app_inj_tail in Hs as [_ <-]. simpl.
      repeat split; try assumption; apply on_grid_snap.
    + intros Hs. exfalso. apply (f_equal length) in Hs. rewrite length_app in Hs. simpl in Hs. lia.
Qed.

End ExactInteraction.

(** ** Runs *)

Module Binary64Runs.
Import Binary64 Examples MoreExamples.
Local Open Scope js_scope.






Lemma ids_stay_unique_witness : unique_ids (onDelete selected_b).
Proof.
  apply (ids_stay_unique selected_b).
  unfold unique_ids. apply (bool_decide_unpack _). vm_compute. reflexivity.
Defined.

Lemma startDraw_selects_topmost_witness :
  exists st1, startDraw canvas0 (mouseAt 10 30) select_tool = Some st1 /\
              shapes st1 = shapes select_tool.
Proof.
  destruct (startDraw_selects_topmost canvas0 (mouseAt 10 30) select_tool
              eq_refl eq_refl eq_refl) as (st1 & Hst1 & Hshapes & _).
  exists st1. split; assumption.
Defined.


Lemma draw_drags_selection_witness :
  map shape_id (shapes (draw canvas0 (mouseAt 5 5) dragging_b)) =
  map shape_id (shapes dragging_b).
Proof.
  apply (draw_drags_selection canvas0 (mouseAt 5 5) dragging_b); reflexivity.
Defined.

Lemma pen_gesture_commits_path_witness :
  exists st1,
    startDraw canvas0 (mouseAt 3 4) initialState = Some st1 /\
    shapes (endDraw canvas0 "id1" (mouseAt 47 52) (drawMoves canvas0 [mouseAt 47 52] st1)) =
    [Pen "id1" [snapped initialState canvas0 (mouseAt 3 4);
                snapped initialState canvas0 (mouseAt 47 52)]].
Proof.
  destruct (pen_gesture_commits_path canvas0 (mouseAt 3 4) (mouseAt 47 52) [mouseAt 47 52]
              "id1" initialState) as (st1 & Hst1 & _ & Hshapes);
    try reflexivity.
  - repeat split; reflexivity.
  - exists st1. split; [exact Hst1|exact Hshapes].
Defined.

Lemma importShapes_appends_witness :
  importShapes [("i2", mkElement "path" [("d", "M3,4 Z")])]%string (initialState (num := float))
  = initialState.
Proof.
  apply (importShapes_appends [("i2", mkElement "path" [("d", "M3,4 Z")])]%string initialState).
  vm_compute. reflexivity.
Defined.

Lemma parseSVGElement_result_witness :
  shape_id (Rect (num := float) "i1" (int 10) (int 20) (int 30) (int 40)) = "i1"%string.
Proof.
  apply (parseSVGElement_result "i1"
           (mkElement "rect" [("x", "10"); ("y", "20"); ("width", "30"); ("height", "40")]%string)
           (Rect "i1" (int 10) (int 20) (int 30) (int 40))).
  vm_compute. reflexivity.
Defined.

Lemma parsePoints_pairs_witness :
  parsePoints (num := float) "0,0 10,10 20" !! 1%nat =
  Some (mkPoint (parseFloat "10") (parseFloat "10")).
Proof.
  apply (proj2 (parsePoints_pairs (num := float) "0,0 10,10 20") 1%nat "10"%string "10"%string);
    vm_compute; reflexivity.
Defined.

Lemma parsePath_point_count_witness :
  parseSVGElement (num := float) "i4" (mkElement "path" [("d", "H5 V6 Z")]%string) = None.
Proof.
  apply (parsePath_point_count (num := float) "i4" "H5 V6 Z"). vm_compute. reflexivity.
Defined.

End Binary64Runs.

Module ExactRuns.
Import Exact ExactVocabulary Examples MoreExamples ExactGeometry ExactInteraction.
Local Open Scope R_scope.

Lemma line_hit_on_segment_witness :
  isPointInShape 2 (mkPoint 20 60) (Line "c" 0 0 20 60) = Some true.
Proof.
  apply (line_hit_on_segment 2 "c" 0 0 20 60 (1 / 2)); lra.
Defined.

Lemma pen_hit_at_vertices_witness :
  isPointInShape 1 (mkPoint 20 40) (Pen "p" zigzag_R) = Some true.
Proof.
  apply (pen_hit_at_vertices 1 "p" zigzag_R 1%nat (mkPoint 20 40));
    [lra|simpl; lia|reflexivity].
Defined.

Lemma rect_hit_centre_not_far_witness :
  isPointInShape 1 (mkPoint (0 + 50 / 2) (0 + 50 / 2)) (Rect "a" 0 0 50 50) = Some true.
Proof.
  apply (rect_hit_centre_not_far 1 "a" 0 0 50 50); lra.
Defined.

Lemma rect_negative_extent_never_hit_witness :
  isPointInShape 1 (mkPoint 80 90) (Rect "r" 100 100 (-40) (-20)) = Some false.
Proof.
  apply (rect_negative_extent_never_hit 1 (mkPoint 80 90) "r" 100 100 (-40) (-20)).
  left. lra.
Defined.


Lemma zoom_steps_progress_witness :
  zoom zoomed_view < zoom (handleZoomIn zoomed_view).
Proof.
  apply (zoom_steps_progress zoomed_view); unfold in_zoom_range; cbn; lra.
Defined.

Lemma draw_pans_with_pointer_witness :
  pan (draw canvas_R (mouse_R 130 90) panning_view) =
  mkPoint (40 + (130 - 100)) (20 + (90 - 100)).
Proof.
  apply (draw_pans_with_pointer canvas_R (mouse_R 100 100) (mouse_R 130 90)
           (mkPoint 40 20) panning_view); [reflexivity|].
  cbn. f_equal; lra.
Defined.

Lemma drag_adds_anchor_witness :
  shapes (draw canvas_R (mouse_R 110 105) dragging_rect_R) !! 0%nat =
  Some (Rect "a"
          (100 + ((pt_x (pos dragging_rect_R canvas_R (mouse_R 110 105)) - 110) + 100))
          (100 + ((pt_y (pos dragging_rect_R canvas_R (mouse_R 110 105)) - 105) + 100))
          40 40).
Proof.
  apply (drag_adds_anchor canvas_R (mouse_R 110 105) dragging_rect_R 0%nat "a"
           100 100 40 40 110 105); reflexivity.
Defined.

Lemma gestures_commit_on_grid_witness :
  shape_on_grid
    (Rect "id1" 20 40
       (snap (pt_x (pos drawing_rect_R canvas_R (mouse_R 130 90))) - 20)
       (snap (pt_y (pos drawing_rect_R canvas_R (mouse_R 130 90))) - 40)).
Proof.
  apply (gestures_commit_on_grid canvas_R "id1" (mouse_R 130 90) drawing_rect_R);
    try reflexivity.
  - split; [exists 1%Z|exists 2%Z]; cbn; lra.
  - constructor.
Defined.

End ExactRuns.
